(** * NetExec entry point ([nxc/netexec.py]): a shallow embedding

    The orchestration code of [main] and [start_run] is embedded as
    state-passing functions over an explicit run state.  Everything the
    entry point imports from elsewhere (parsers, loaders, the HTTP
    server, the protocol handler, the operator at the terminal) is a
    field of the record [World]; the run leaves a trace of the effects
    it performs, on which the properties are stated.

    Worker threads are not modelled: a submission is recorded with the
    way the handler ends on its target, and the join of the pool stands
    for the wait for the workers.  Ctrl-C is modelled during dispatch
    only.  The file-descriptor limit (lines 33-42), the import check
    (lines 44-48) and the logging set-up and debug output of [main]
    (lines 78-99 and the [nxc_logger.debug] calls) are left out. *)

From Stdlib Require Import ZArith List String Ascii Bool Lia Arith.
From Stdlib Require Import Decimal DecimalString.
From Stdlib Require DecimalPos.
From Stdlib Require Import Sorted Permutation.
Import ListNotations.

Local Open Scope string_scope.
Local Open Scope list_scope.
Local Open Scope Z_scope.

(** ** Python values and built-ins used by the entry point *)

(** The exception classes that can reach the entry point, all of
    them subclasses of [Exception]. *)
Inductive exn : Type :=
| ValueError
| AttributeError
| KeyError
| EOFError
| OSError.

(** How a piece of code ends: it falls through with a value, calls
    [exit(code)], lets an [Exception] escape, or is stopped by the
    [KeyboardInterrupt] of a Ctrl-C. *)
Inductive outcome (A : Type) : Type :=
| Ret (a : A)
| Exit (code : Z)
| Raise (e : exn)
| Interrupt.

Arguments Ret {A} a.
Arguments Exit {A} code.
Arguments Raise {A} e.
Arguments Interrupt {A}.

(** The status the interpreter hands to the operating system: 0 when
    [main] returns, the argument of [exit], 1 for a traceback, 130
    for an unhandled [KeyboardInterrupt]. *)
Definition exit_status {A : Type} (o : outcome A) : Z :=
  match o with
  | Ret _ => 0
  | Exit code => code
  | Raise _ => 1
  | Interrupt => 130
  end.

Module Py.

(** [c in s] for a one-character [c]. *)
Fixpoint contains_char (c : ascii) (s : string) : bool :=
  match s with
  | EmptyString => false
  | String a s' => Ascii.eqb a c || contains_char c s'
  end.

(** [s.split(c)]: the pieces between the occurrences of [c]; never
    empty. *)
Fixpoint split (c : ascii) (s : string) : list string :=
  match s with
  | EmptyString => [EmptyString]
  | String a s' =>
      if Ascii.eqb a c then EmptyString :: split c s'
      else match split c s' with
           | [] => [String a EmptyString]
           | p :: ps => String a p :: ps
           end
  end.

(** White space of [str.strip] and [int] within ASCII: TAB to CR,
    FS to US, and the blank. *)
Definition is_space (a : ascii) : bool :=
  let n := nat_of_ascii a in
  ((9 <=? n)%nat && (n <=? 13)%nat) || ((28 <=? n)%nat && (n <=? 32)%nat).

Fixpoint lstrip (s : string) : string :=
  match s with
  | EmptyString => EmptyString
  | String a s' => if is_space a then lstrip s' else s
  end.

Fixpoint rstrip (s : string) : string :=
  match s with
  | EmptyString => EmptyString
  | String a s' =>
      match rstrip s' with
      | EmptyString => if is_space a then EmptyString else String a EmptyString
      | r => String a r
      end
  end.

(** [s.strip()] *)
Definition strip (s : string) : string := rstrip (lstrip s).

Definition digit_of (a : ascii) : option Z :=
  let n := nat_of_ascii a in
  if (48 <=? n)%nat && (n <=? 57)%nat then Some (Z.of_nat (n - 48)) else None.

(** Decimal digits with single underscores between them;
    [after_digit] tells whether the previous character was a digit. *)
Fixpoint parse_digits (acc : Z) (after_digit : bool) (s : string) : option Z :=
  match s with
  | EmptyString => if after_digit then Some acc else None
  | String a s' =>
      match digit_of a with
      | Some d => parse_digits (10 * acc + d) true s'
      | None =>
          if Ascii.eqb a "_" && after_digit then parse_digits acc false s'
          else None
      end
  end.

(** [int(s)] on an ASCII string; [None] stands for [ValueError]. *)
Definition int (s : string) : option Z :=
  match strip s with
  | String "+" r => parse_digits 0 false r
  | String "-" r => option_map Z.opp (parse_digits 0 false r)
  | t => parse_digits 0 false t
  end.

(** [str(n)] for an integer. *)
Definition str_of_int (n : Z) : string := NilZero.string_of_int (Z.to_int n).

(** [list(range(lo, hi))] *)
Definition range (lo hi : Z) : list Z :=
  map (fun k => lo + Z.of_nat k) (seq 0 (Z.to_nat (hi - lo))).

Definition lower_char (a : ascii) : ascii :=
  let n := nat_of_ascii a in
  if (65 <=? n)%nat && (n <=? 90)%nat then ascii_of_nat (n + 32) else a.

(** [s.lower()] on an ASCII string. *)
Fixpoint lower (s : string) : string :=
  match s with
  | EmptyString => EmptyString
  | String a s' => String (lower_char a) (lower s')
  end.

End Py.

(** ** Credential ids *)

(** An entry of [args.cred_id]: the strings of the command line, and
    the integers the expansion appends. *)
Inductive cred : Type :=
| CStr (s : string)
| CInt (n : Z).

Definition cred_eqb (x y : cred) : bool :=
  match x, y with
  | CStr s, CStr t => String.eqb s t
  | CInt n, CInt m => Z.eqb n m
  | _, _ => false
  end.

(** [str(cred_id)] *)
Definition cred_str (x : cred) : string :=
  match x with
  | CStr s => s
  | CInt n => Py.str_of_int n
  end.

(** [l.remove(x)]: drops the first entry equal to [x]; [None] stands
    for the [ValueError] of an absent [x]. *)
Fixpoint list_remove (x : cred) (l : list cred) : option (list cred) :=
  match l with
  | [] => None
  | y :: l' =>
      if cred_eqb y x then Some l'
      else option_map (cons y) (list_remove x l')
  end.

(** The body of the loop at lines 121-129 for the entry [x] the
    iterator has just fetched, [l] being the list at that moment.  The
    unpacking of [split] and a [split] on an integer are outside the
    [try]; the conversions, the appends and the removal are inside,
    where any [Exception] ends in [exit(1)]. *)
Definition expand_entry (l : list cred) (x : cred) : outcome (list cred) :=
  if Py.contains_char "-" (cred_str x) then
    match x with
    | CInt _ => Raise AttributeError
    | CStr s =>
        match Py.split "-" s with
        | [start_id; end_id] =>
            match Py.int start_id, Py.int end_id with
            | Some a, Some b =>
                match list_remove x (l ++ map CInt (Py.range a (b + 1))) with
                | Some l' => Ret l'
                | None => Exit 1
                end
            | _, _ => Exit 1
            end
        | _ => Raise ValueError
        end
    end
  else Ret l.

(** [for cred_id in args.cred_id: ...] over the list being mutated:
    the list iterator keeps an index [i], fetches [l[i]] as long as
    [i < len(l)], and moves on to [i + 1] whatever the body did to the
    list.  [None] only when [fuel] runs out. *)
Fixpoint expand_loop (fuel : nat) (l : list cred) (i : nat)
  : option (outcome (list cred)) :=
  match fuel with
  | O => None
  | S fuel' =>
      match nth_error l i with
      | None => Some (Ret l)
      | Some x =>
          match expand_entry l x with
          | Ret l' => expand_loop fuel' l' (S i)
          | Exit code => Some (Exit code)
          | Raise e => Some (Raise e)
          | Interrupt => Some Interrupt
          end
      end
  end.

(** What examining an entry can add to the list, plus one: the
    examination takes that much off the bound [fuel_bound]. *)
Definition entry_weight (x : cred) : nat :=
  match x with
  | CInt _ => O
  | CStr s =>
      match Py.split "-" s with
      | [start_id; end_id] =>
          match Py.int start_id, Py.int end_id with
          | Some a, Some b => S (List.length (Py.range a (b + 1)))
          | _, _ => O
          end
      | _ => O
      end
  end.

Definition weight (l : list cred) : nat :=
  fold_right (fun x n => (entry_weight x + n)%nat) O l.

(** Iterations that are enough for any list: see [expand_loop_fuel_bound]. *)
Definition fuel_bound (l : list cred) : nat := S (List.length l + weight l).

(** Lines 119-129 on a non-empty [args.cred_id].  The second branch is
    never taken ([expand_loop_fuel_bound]). *)
Definition expand_cred_ids (l : list cred) : outcome (list cred) :=
  match expand_loop (fuel_bound l) l 0 with
  | Some r => r
  | None => Ret l
  end.

(** ** The world around the entry point *)

(** A value of the dictionary [loader.list_modules()]. *)
Record module_info : Type := {
  mi_path : string;
  mi_description : string;
  mi_options : string;
  mi_supported_protocols : list string
}.

(** The object [loader.init_module(path)] returns, as far as [main]
    looks at it.  [has_on_request] and [has_has_response] are
    [hasattr(module, ...)]; [required_server] is [None] when the
    attribute is absent. *)
Record module_obj : Type := {
  mod_name : string;
  opsec_safe : bool;
  multiple_hosts : bool;
  has_on_request : bool;
  has_has_response : bool;
  required_server : option string
}.

(** Everything [main] gets from outside [netexec.py]. *)
Record World : Type := {
  (** [os.environ.get("KRB5CCNAME")] *)
  environ_KRB5CCNAME : option string;
  (** [nxc.config.ignore_opsec] *)
  ignore_opsec : bool;
  (** [exists(p) and os.path.isfile(p)] *)
  is_file : string -> bool;
  identify_target_file : string -> string;
  parse_nmap_xml : string -> string -> list string;
  parse_nessus_file : string -> string -> list string;
  (** the lines of a text file, in order *)
  read_lines : string -> list string;
  parse_targets : string -> list string;
  (** the keys of [p_loader.get_protocols()] *)
  protocols : list string;
  (** [loader.list_modules()], a dictionary: distinct keys *)
  modules : list (string * module_info);
  init_module : string -> module_obj;
  (** what the operator types at each [input()], in order *)
  stdin : list string;
  (** what the n-th call of [NXCHTTPServer(...)] raises, and what the
      [start()] of the server it made raises; [None]: they return *)
  http_server_new : nat -> option exn;
  http_server_start : nat -> option exn;
  (** how [protocol_obj(args, db, target)] ends in its worker *)
  handler : string -> outcome unit;
  (** [Some k]: Ctrl-C arrives once [k] units have been submitted
      (or all of them, if there are fewer) *)
  interrupt : option nat
}.

(** The parsed command line, as far as [main] reads it.  Attributes a
    protocol's parser may not define are options; flags are their
    truth values. *)
Record Args : Type := {
  protocol : option string;
  key_file : option string;
  password : list string;
  use_kcache : bool;
  cred_id : option (list cred);
  target : option (list string);
  clear_obfscripts : bool;
  obfs : bool;
  module : list string;
  list_modules : bool;
  show_module_options : bool;
  server : string;
  server_host : string;
  server_port : option Z;
  ntds : bool;
  userntds : bool;
  no_progress : bool;
  threads : Z
}.

(** ** Effects *)

Inductive prompt_kind : Type :=
| PromptOpsec
| PromptMultipleHosts
| PromptNtds.

Inductive log_msg : Type :=
| LogSshPassword
| LogKrb5
| LogCredId
| LogModuleNotFound (m : string)
| LogServerError (m : string).

Inductive event : Type :=
| EvError (m : log_msg)
| EvDisplayModule (name description : string)
| EvDisplayOptions (name options : string)
| EvDisplayOpsecIgnored
| EvPrompt (k : prompt_kind) (answer : option string)
| EvClearObfuscated
| EvDbEngine (protocol : string)
| EvServerNew (id : nat) (host : string) (port : option Z) (kind : string)
| EvServerStart (id : nat)
| EvServerShutdown (id : nat)
| EvProgressOpen
| EvProgressTask (total : nat)
| EvProgressUpdate (completed : nat)
| EvProgressClose
| EvPool (max_workers : Z)
| EvSubmit (target : string) (result : outcome unit)
| EvPoolJoin
| EvDbDispose.

(** What [main] mutates: the attributes of [args] it assigns, its
    locals, the attributes it sets on the protocol class, and the
    trace of effects so far. *)
Record state : Type := {
  st_cred_id : option (list cred);
  st_server : string;
  st_server_port : option Z;
  st_stdin : list string;
  st_targets : list string;
  st_module_server : option nat;
  st_servers : nat;
  st_proto_server : option nat;
  st_proto_module : list module_obj;
  st_obfuscate : bool;
  st_trace : list event
}.

Definition initial_state (w : World) (a : Args) : state :=
  {| st_cred_id := cred_id a;
     st_server := server a;
     st_server_port := server_port a;
     st_stdin := stdin w;
     st_targets := [];
     st_module_server := None;
     st_servers := O;
     st_proto_server := None;
     st_proto_module := [];
     st_obfuscate := false;
     st_trace := [] |}.

Definition set_cred_id (v : option (list cred)) (s : state) : state :=
  {| st_cred_id := v; st_server := st_server s;
     st_server_port := st_server_port s; st_stdin := st_stdin s;
     st_targets := st_targets s; st_module_server := st_module_server s;
     st_servers := st_servers s; st_proto_server := st_proto_server s;
     st_proto_module := st_proto_module s; st_obfuscate := st_obfuscate s;
     st_trace := st_trace s |}.

Definition set_server (v : string) (s : state) : state :=
  {| st_cred_id := st_cred_id s; st_server := v;
     st_server_port := st_server_port s; st_stdin := st_stdin s;
     st_targets := st_targets s; st_module_server := st_module_server s;
     st_servers := st_servers s; st_proto_server := st_proto_server s;
     st_proto_module := st_proto_module s; st_obfuscate := st_obfuscate s;
     st_trace := st_trace s |}.

Definition set_server_port (v : option Z) (s : state) : state :=
  {| st_cred_id := st_cred_id s; st_server := st_server s;
     st_server_port := v; st_stdin := st_stdin s;
     st_targets := st_targets s; st_module_server := st_module_server s;
     st_servers := st_servers s; st_proto_server := st_proto_server s;
     st_proto_module := st_proto_module s; st_obfuscate := st_obfuscate s;
     st_trace := st_trace s |}.

Definition set_stdin (v : list string) (s : state) : state :=
  {| st_cred_id := st_cred_id s; st_server := st_server s;
     st_server_port := st_server_port s; st_stdin := v;
     st_targets := st_targets s; st_module_server := st_module_server s;
     st_servers := st_servers s; st_proto_server := st_proto_server s;
     st_proto_module := st_proto_module s; st_obfuscate := st_obfuscate s;
     st_trace := st_trace s |}.

Definition set_targets (v : list string) (s : state) : state :=
  {| st_cred_id := st_cred_id s; st_server := st_server s;
     st_server_port := st_server_port s; st_stdin := st_stdin s;
     st_targets := v; st_module_server := st_module_server s;
     st_servers := st_servers s; st_proto_server := st_proto_server s;
     st_proto_module := st_proto_module s; st_obfuscate := st_obfuscate s;
     st_trace := st_trace s |}.

Definition set_module_server (v : option nat) (s : state) : state :=
  {| st_cred_id := st_cred_id s; st_server := st_server s;
     st_server_port := st_server_port s; st_stdin := st_stdin s;
     st_targets := st_targets s; st_module_server := v;
     st_servers := st_servers s; st_proto_server := st_proto_server s;
     st_proto_module := st_proto_module s; st_obfuscate := st_obfuscate s;
     st_trace := st_trace s |}.

Definition set_servers (v : nat) (s : state) : state :=
  {| st_cred_id := st_cred_id s; st_server := st_server s;
     st_server_port := st_server_port s; st_stdin := st_stdin s;
     st_targets := st_targets s; st_module_server := st_module_server s;
     st_servers := v; st_proto_server := st_proto_server s;
     st_proto_module := st_proto_module s; st_obfuscate := st_obfuscate s;
     st_trace := st_trace s |}.

Definition set_proto_server (v : option nat) (s : state) : state :=
  {| st_cred_id := st_cred_id s; st_server := st_server s;
     st_server_port := st_server_port s; st_stdin := st_stdin s;
     st_targets := st_targets s; st_module_server := st_module_server s;
     st_servers := st_servers s; st_proto_server := v;
     st_proto_module := st_proto_module s; st_obfuscate := st_obfuscate s;
     st_trace := st_trace s |}.

Definition set_proto_module (v : list module_obj) (s : state) : state :=
  {| st_cred_id := st_cred_id s; st_server := st_server s;
     st_server_port := st_server_port s; st_stdin := st_stdin s;
     st_targets := st_targets s; st_module_server := st_module_server s;
     st_servers := st_servers s; st_proto_server := st_proto_server s;
     st_proto_module := v; st_obfuscate := st_obfuscate s;
     st_trace := st_trace s |}.

Definition set_obfuscate (v : bool) (s : state) : state :=
  {| st_cred_id := st_cred_id s; st_server := st_server s;
     st_server_port := st_server_port s; st_stdin := st_stdin s;
     st_targets := st_targets s; st_module_server := st_module_server s;
     st_servers := st_servers s; st_proto_server := st_proto_server s;
     st_proto_module := st_proto_module s; st_obfuscate := v;
     st_trace := st_trace s |}.

Definition set_trace (v : list event) (s : state) : state :=
  {| st_cred_id := st_cred_id s; st_server := st_server s;
     st_server_port := st_server_port s; st_stdin := st_stdin s;
     st_targets := st_targets s; st_module_server := st_module_server s;
     st_servers := st_servers s; st_proto_server := st_proto_server s;
     st_proto_module := st_proto_module s; st_obfuscate := st_obfuscate s;
     st_trace := v |}.

(** A piece of [main]: from a state to how it ends and the state it
    leaves.  Mutations and effects made before an [exit] or an
    exception stay. *)
Definition M (A : Type) : Type := state -> outcome A * state.

Definition ret {A : Type} (a : A) : M A := fun s => (Ret a, s).

Definition bind {A B : Type} (c : M A) (k : A -> M B) : M B :=
  fun s =>
    match c s with
    | (Ret a, s') => k a s'
    | (Exit code, s') => (Exit code, s')
    | (Raise e, s') => (Raise e, s')
    | (Interrupt, s') => (Interrupt, s')
    end.

Definition exit {A : Type} (code : Z) : M A := fun s => (Exit code, s).

Definition raise {A : Type} (e : exn) : M A := fun s => (Raise e, s).

(** Ctrl-C arrives. *)
Definition keyboard_interrupt {A : Type} : M A := fun s => (Interrupt, s).

Definition get : M state := fun s => (Ret s, s).

Definition modify (f : state -> state) : M unit := fun s => (Ret tt, f s).

Definition emit (e : event) : M unit :=
  modify (fun s => set_trace (st_trace s ++ [e]) s).

(** A call into the world that returns or raises. *)
Definition call (raised : option exn) : M unit :=
  match raised with
  | None => ret tt
  | Some e => raise e
  end.

Declare Scope run_scope.
Delimit Scope run_scope with run.
Notation "x <- c ;; k" := (bind c (fun x => k))
  (at level 61, c at next level, right associativity) : run_scope.
Notation "c ;; k" := (bind c (fun _ => k))
  (at level 61, right associativity) : run_scope.
Local Open Scope run_scope.

(** [for x in l: body(x)] over a list the body does not touch. *)
Fixpoint for_each {A : Type} (l : list A) (body : A -> M unit) : M unit :=
  match l with
  | [] => ret tt
  | x :: l' => body x ;; for_each l' body
  end.

(** [try: c  except Exception as e: h(e)]; [SystemExit] and
    [KeyboardInterrupt] are not [Exception]s and pass. *)
Definition try_except_Exception (c : M unit) (h : exn -> M unit) : M unit :=
  fun s =>
    match c s with
    | (Raise e, s') => h e s'
    | r => r
    end.

(** [try: c  except KeyboardInterrupt: h] *)
Definition try_except_KeyboardInterrupt (c : M unit) (h : M unit) : M unit :=
  fun s =>
    match c s with
    | (Interrupt, s') => h s'
    | r => r
    end.

(** [try: c  finally: f]: [f] runs however [c] ends; what [c] did
    stands unless [f] itself exits or raises. *)
Definition try_finally {A : Type} (c : M A) (f : M unit) : M A :=
  fun s =>
    match c s with
    | (o, s') =>
        match f s' with
        | (Ret _, s'') => (o, s'')
        | (Exit code, s'') => (Exit code, s'')
        | (Raise e, s'') => (Raise e, s'')
        | (Interrupt, s'') => (Interrupt, s'')
        end
    end.

(** ** [start_run] (lines 55-74) *)

(** [ThreadPoolExecutor(max_workers=n)]: the constructor refuses a
    pool without workers. *)
Definition executor_new (max_workers : Z) : M unit :=
  if max_workers <=? 0 then raise ValueError else emit (EvPool max_workers).

(** [with ThreadPoolExecutor(max_workers=n) as executor: body]: on the
    way out, normal or not, [shutdown(wait=True)] joins the workers. *)
Definition with_executor {A : Type} (max_workers : Z) (body : M A) : M A :=
  executor_new max_workers ;; try_finally body (emit EvPoolJoin).

(** [with Progress(console=nxc_console) as progress: body] *)
Definition with_progress {A : Type} (body : M A) : M A :=
  emit EvProgressOpen ;; try_finally body (emit EvProgressClose).

(** [executor.submit(protocol_obj, args, db, target)]: the call runs
    in a worker, and however it ends is kept in the future that
    [submit] returns; nothing raised in the worker reaches the
    submitting thread. *)
Definition submit (w : World) (target : string) : M (outcome unit) :=
  emit (EvSubmit target (handler w target)) ;; ret (handler w target).

Fixpoint submit_each (w : World) (targets : list string) : M (list (outcome unit)) :=
  match targets with
  | [] => ret []
  | t :: ts =>
      f <- submit w t ;;
      fs <- submit_each w ts ;;
      ret (f :: fs)
  end.

(** [[executor.submit(protocol_obj, args, db, target) for target in
    targets]], cut short by Ctrl-C when the world sends it. *)
Definition submit_all (w : World) (targets : list string) : M (list (outcome unit)) :=
  match interrupt w with
  | None => submit_each w targets
  | Some k => submit_each w (firstn k targets) ;; keyboard_interrupt
  end.

Definition start_run (w : World) (a : Args) (targets : list string) : M unit :=
  if no_progress a || (List.length targets =? 1)%nat then
    with_executor (threads a + 1) (submit_all w targets ;; ret tt)
  else
    with_progress
      (with_executor (threads a + 1)
         (let total := List.length targets in
          emit (EvProgressTask total) ;;
          futures <- submit_all w targets ;;
          for_each (seq 1 (List.length futures))
            (fun current => emit (EvProgressUpdate current)))).

(** ** [main] (lines 77-272) *)

(** Truth value of a string attribute that may be [None]. *)
Definition truthy (o : option string) : bool :=
  match o with
  | Some (String _ _) => true
  | _ => false
  end.

Definition protocol_name (a : Args) : string :=
  match protocol a with
  | Some p => p
  | None => EmptyString
  end.

(** Lines 102-103 *)
Definition check_protocol (a : Args) : M unit :=
  if truthy (protocol a) then ret tt else exit 1.

(** Lines 105-109 *)
Definition check_ssh (a : Args) : M unit :=
  if String.eqb (protocol_name a) "ssh" then
    if truthy (key_file a) then
      match password a with
      | [] => emit (EvError LogSshPassword) ;; exit 1
      | _ :: _ => ret tt
      end
    else ret tt
  else ret tt.

(** Lines 111-113 *)
Definition check_kcache (w : World) (a : Args) : M unit :=
  if use_kcache a && negb (truthy (environ_KRB5CCNAME w)) then
    emit (EvError LogKrb5) ;; exit 1
  else ret tt.

(** Lines 119-129 *)
Definition expand_step : M unit :=
  s <- get ;;
  match st_cred_id s with
  | Some (x :: l) =>
      match expand_cred_ids (x :: l) with
      | Ret l' => modify (set_cred_id (Some l'))
      | Exit code => emit (EvError LogCredId) ;; exit code
      | Raise e => raise e
      | Interrupt => keyboard_interrupt
      end
  | _ => ret tt
  end.

(** The body of the loop at lines 132-144: one raw target, literal or
    file, added to [targets]. *)
Definition add_target (w : World) (proto : string)
  (targets : list string) (target : string) : list string :=
  if is_file w target then
    let target_file_type := identify_target_file w target in
    if String.eqb target_file_type "nmap" then
      targets ++ parse_nmap_xml w target proto
    else if String.eqb target_file_type "nessus" then
      targets ++ parse_nessus_file w target proto
    else
      fold_left
        (fun targets target_entry =>
           targets ++ parse_targets w (Py.strip target_entry))
        (read_lines w target) targets
  else targets ++ parse_targets w target.

(** Lines 131-144 *)
Definition build_targets (w : World) (proto : string)
  (raw : option (list string)) : list string :=
  match raw with
  | Some l => fold_left (add_target w proto) l []
  | None => []
  end.

Definition targets_step (w : World) (a : Args) : M unit :=
  modify (set_targets (build_targets w (protocol_name a) (target a))).

(** Lines 147-153 *)
Definition obfuscation_step (a : Args) : M unit :=
  (if clear_obfscripts a then emit EvClearObfuscated else ret tt) ;;
  (if obfs a then modify (set_obfuscate true) else ret tt).

(** Lines 155-175: an unknown protocol is a [KeyError] of the
    dictionary of protocols. *)
Definition load_protocol (w : World) (a : Args) : M unit :=
  if existsb (String.eqb (protocol_name a)) (protocols w) then
    emit (EvDbEngine (protocol_name a))
  else raise KeyError.

(** [d.get(k)] on a dictionary kept as a list of items. *)
Fixpoint lookup {V : Type} (k : string) (d : list (string * V)) : option V :=
  match d with
  | [] => None
  | (k', v) :: d' => if String.eqb k' k then Some v else lookup k d'
  end.

Fixpoint insert_by_name {V : Type} (x : string * V) (l : list (string * V))
  : list (string * V) :=
  match l with
  | [] => [x]
  | y :: l' =>
      if String.leb (fst x) (fst y) then x :: y :: l'
      else y :: insert_by_name x l'
  end.

(** [sorted(d.items())] *)
Definition sorted_items {V : Type} (d : list (string * V)) : list (string * V) :=
  fold_right insert_by_name [] d.

(** [input(prompt)] *)
Definition input (k : prompt_kind) : M string :=
  s <- get ;;
  match st_stdin s with
  | [] => emit (EvPrompt k None) ;; raise EOFError
  | ans :: rest =>
      modify (set_stdin rest) ;; emit (EvPrompt k (Some ans)) ;; ret ans
  end.

(** [ans.lower() in ["y", "yes", EmptyString]] *)
Definition affirmative (ans : string) : bool :=
  existsb (String.eqb (Py.lower ans)) ["y"; "yes"; EmptyString].

(** [ans = input(...)] followed by
    [if ans.lower() not in ["y", "yes", EmptyString]: exit(1)] *)
Definition confirm (k : prompt_kind) : M unit :=
  ans <- input k ;;
  if affirmative ans then ret tt else exit 1.

(** Lines 200-212 *)
Definition opsec_gate (w : World) (m : module_obj) : M unit :=
  if negb (opsec_safe m) then
    if ignore_opsec w then emit EvDisplayOpsecIgnored else confirm PromptOpsec
  else ret tt.

(** Lines 214-222 *)
Definition multiple_hosts_gate (m : module_obj) : M unit :=
  s <- get ;;
  if negb (multiple_hosts m) && (1 <? List.length (st_targets s))%nat then
    confirm PromptMultipleHosts
  else ret tt.

(** Line 117 *)
Definition server_port_dict : list (string * Z) :=
  [("http", 80); ("https", 443); ("smb", 445)].

(** [not args.server_port] *)
Definition port_unset (p : option Z) : bool :=
  match p with
  | None => true
  | Some n => n =? 0
  end.

(** Lines 232-245 *)
Definition start_module_server (w : World) (a : Args) (m : module_obj) : M unit :=
  try_except_Exception
    (s <- get ;;
     let id := st_servers s in
     modify (set_servers (S id)) ;;
     call (http_server_new w id) ;;
     modify (set_module_server (Some id)) ;;
     emit (EvServerNew id (server_host a) (st_server_port s) (st_server s)) ;;
     call (http_server_start w id) ;;
     emit (EvServerStart id) ;;
     modify (set_proto_server (Some id)))
    (fun _ => emit (EvError (LogServerError (mod_name m)))).

(** Lines 224-245 *)
Definition module_server_step (w : World) (a : Args) (m : module_obj) : M unit :=
  if has_on_request m || has_has_response m then
    (match required_server m with
     | Some kind => modify (set_server kind)
     | None => ret tt
     end) ;;
    s <- get ;;
    (if port_unset (st_server_port s) then
       match lookup (st_server s) server_port_dict with
       | Some p => modify (set_server_port (Some p))
       | None => raise KeyError
       end
     else ret tt) ;;
    start_module_server w a m
  else ret tt.

(** Lines 250-252 *)
Definition attach (m : module_obj) : M unit :=
  modify (fun s => set_proto_module (st_proto_module s ++ [m]) s).

(** The body of the loop at lines 192-253 for the lower-cased name. *)
Definition load_module (w : World) (a : Args) (name : string) : M unit :=
  match lookup name (modules w) with
  | None => emit (EvError (LogModuleNotFound name)) ;; exit 1
  | Some info =>
      let m := init_module w (mi_path info) in
      opsec_gate w m ;;
      multiple_hosts_gate m ;;
      module_server_step w a m ;;
      attach m
  end.

(** Lines 181-185 *)
Definition list_modules_mode (w : World) (a : Args) : M unit :=
  for_each (sorted_items (modules w))
    (fun item =>
       if existsb (String.eqb (protocol_name a))
            (mi_supported_protocols (snd item))
       then emit (EvDisplayModule (fst item) (mi_description (snd item)))
       else ret tt) ;;
  exit 0.

(** Lines 186-189 *)
Definition show_options_mode (w : World) (a : Args) : M unit :=
  for_each (module a)
    (fun name =>
       match lookup name (modules w) with
       | Some info => emit (EvDisplayOptions name (mi_options info))
       | None => raise KeyError
       end) ;;
  exit 0.

(** Lines 177-253 *)
Definition modules_step (w : World) (a : Args) : M unit :=
  if list_modules a then list_modules_mode w a
  else
    match module a with
    | [] => ret tt
    | _ :: _ =>
        if show_module_options a then show_options_mode w a
        else for_each (map Py.lower (module a)) (load_module w a)
    end.

(** Lines 255-263 *)
Definition ntds_gate (a : Args) : M unit :=
  if ntds a && negb (userntds a) then confirm PromptNtds else ret tt.

(** Lines 101-113 *)
Definition preconditions (w : World) (a : Args) : M unit :=
  check_protocol a ;;
  check_ssh a ;;
  check_kcache w a.

(** Everything before the [try] of line 265. *)
Definition setup (w : World) (a : Args) : M unit :=
  preconditions w a ;;
  expand_step ;;
  targets_step w a ;;
  obfuscation_step a ;;
  load_protocol w a ;;
  modules_step w a ;;
  ntds_gate a.

(** Lines 269-272 *)
Definition teardown : M unit :=
  s <- get ;;
  (match st_module_server s with
   | Some id => emit (EvServerShutdown id)
   | None => ret tt
   end) ;;
  emit EvDbDispose.

(** Lines 265-272 *)
Definition dispatch (w : World) (a : Args) : M unit :=
  try_finally
    (try_except_KeyboardInterrupt
       (s <- get ;; start_run w a (st_targets s))
       (ret tt))
    teardown.

Definition main (w : World) (a : Args) : outcome unit * state :=
  (setup w a ;; dispatch w a) (initial_state w a).

(** ** Reading a trace *)

Definition is_dispatch (e : event) : bool :=
  match e with
  | EvPool _ | EvSubmit _ _ | EvPoolJoin => true
  | _ => false
  end.

Definition is_progress (e : event) : bool :=
  match e with
  | EvProgressOpen | EvProgressTask _ | EvProgressUpdate _ | EvProgressClose => true
  | _ => false
  end.

Definition is_server_start (e : event) : bool :=
  match e with
  | EvServerStart _ => true
  | _ => false
  end.

Definition is_server_new (e : event) : bool :=
  match e with
  | EvServerNew _ _ _ _ => true
  | _ => false
  end.

Definition is_server_shutdown (e : event) : bool :=
  match e with
  | EvServerShutdown _ => true
  | _ => false
  end.

Definition is_declined (e : event) : bool :=
  match e with
  | EvPrompt _ (Some ans) => negb (affirmative ans)
  | _ => false
  end.

(** The part of a trace the dispatch engine wrote. *)
Definition dispatched (tr : list event) : list event := filter is_dispatch tr.

(** The targets a handler was invoked on, in order. *)
Fixpoint invocations (tr : list event) : list string :=
  match tr with
  | [] => []
  | EvSubmit t _ :: tr' => t :: invocations tr'
  | _ :: tr' => invocations tr'
  end.

Definition count (p : event -> bool) (tr : list event) : nat :=
  List.length (filter p tr).

(** ** Vocabulary of the properties *)

(** An entry the loop passes over: no range delimiter in [str(x)]. *)
Definition inert (x : cred) : Prop := Py.contains_char "-" (cred_str x) = false.

(** A string that splits at the delimiter into two integer literals. *)
Definition well_formed_range (s : string) : bool :=
  match Py.split "-" s with
  | [start_id; end_id] =>
      match Py.int start_id, Py.int end_id with
      | Some _, Some _ => true
      | _, _ => false
      end
  | _ => false
  end.

(** Ends before the next statement, with status 1. *)
Definition aborts {A : Type} (o : outcome A) : Prop :=
  match o with
  | Ret _ => False
  | Exit code => code = 1
  | Raise _ => True
  | Interrupt => False
  end.

(** The state with more events on its trace. *)
Definition add_events (evs : list event) (s : state) : state :=
  set_trace (st_trace s ++ evs) s.

(** [inv I E c]: started where [I] holds, [c] returns or raises
    where [I] holds, exits with a code [n] where [E n] holds, and is
    not interrupted. *)
Definition inv {A : Type} (I : state -> Prop) (E : Z -> state -> Prop) (c : M A) : Prop :=
  forall s, I s ->
    match c s with
    | (Ret _, s') => I s'
    | (Exit n, s') => E n s'
    | (Raise _, s') => I s'
    | (Interrupt, _) => False
    end.

(** Every event so far satisfies [p]. *)
Definition all_events (p : event -> bool) (s : state) : Prop :=
  Forall (fun e => p e = true) (st_trace s).

(** What [setup] can emit. *)
Definition is_setup (e : event) : bool :=
  match e with
  | EvError _ | EvDisplayModule _ _ | EvDisplayOptions _ _
  | EvDisplayOpsecIgnored | EvPrompt _ _ | EvClearObfuscated
  | EvDbEngine _ | EvServerNew _ _ _ _ | EvServerStart _ => true
  | _ => false
  end.

Definition submit_event (w : World) (t : string) : event := EvSubmit t (handler w t).

(** The targets submitted before Ctrl-C, if it comes. *)
Definition submitted (w : World) (targets : list string) : list string :=
  match interrupt w with
  | None => targets
  | Some k => firstn k targets
  end.

(** What the body of the pool writes, without and with progress. *)
Definition pool_events (w : World) (a : Args) (targets : list string) : list event :=
  EvPool (threads a + 1) :: map (submit_event w) (submitted w targets) ++ [EvPoolJoin].

Definition progress_updates (w : World) (targets : list string) : list event :=
  match interrupt w with
  | None => map EvProgressUpdate (seq 1 (List.length targets))
  | Some _ => []
  end.

(** What [start_run] writes. *)
Definition run_events (w : World) (a : Args) (targets : list string) : list event :=
  if no_progress a || (List.length targets =? 1)%nat then
    if threads a + 1 <=? 0 then [] else pool_events w a targets
  else
    if threads a + 1 <=? 0 then [EvProgressOpen; EvProgressClose]
    else
      [EvProgressOpen; EvPool (threads a + 1); EvProgressTask (List.length targets)]
      ++ map (submit_event w) (submitted w targets)
      ++ progress_updates w targets
      ++ [EvPoolJoin; EvProgressClose].

(** How [start_run] ends. *)
Definition run_outcome (w : World) (a : Args) : outcome unit :=
  if threads a + 1 <=? 0 then Raise ValueError
  else match interrupt w with
       | None => Ret tt
       | Some _ => Interrupt
       end.

(** What the [finally] of line 269 writes. *)
Definition teardown_events (s : state) : list event :=
  match st_module_server s with
  | Some id => [EvServerShutdown id; EvDbDispose]
  | None => [EvDbDispose]
  end.

(** How the [try] of line 265 ends. *)
Definition dispatch_outcome (w : World) (a : Args) : outcome unit :=
  match run_outcome w a with
  | Interrupt => Ret tt
  | o => o
  end.

Definition setup_result (w : World) (a : Args) : outcome unit * state :=
  setup w a (initial_state w a).

(** No handler was invoked and the status is 1. *)
Definition aborted_before_dispatch (r : outcome unit * state) : Prop :=
  exit_status (fst r) = 1 /\ dispatched (st_trace (snd r)) = [].

Definition never_returns {A : Type} (c : M A) : Prop :=
  forall s, match fst (c s) with Ret _ => False | _ => True end.

Definition not_declined (e : event) : bool := negb (is_declined e).

(** [hasattr(module, "on_request") or hasattr(module, "has_response")] *)
Definition needs_server (m : module_obj) : bool :=
  has_on_request m || has_has_response m.






(** The kind a module's server gets: the one it forces, else the
    configured one. *)
Definition server_kind (m : module_obj) (s : state) : string :=
  match required_server m with
  | Some kind => kind
  | None => st_server s
  end.





(** What one raw target contributes. *)
Definition source_targets (w : World) (proto target : string) : list string :=
  if is_file w target then
    if String.eqb (identify_target_file w target) "nmap" then
      parse_nmap_xml w target proto
    else if String.eqb (identify_target_file w target) "nessus" then
      parse_nessus_file w target proto
    else flat_map (fun line => parse_targets w (Py.strip line)) (read_lines w target)
  else parse_targets w target.

(** ** Worlds and command lines to run the model on *)

Definition module_at (path : string) : module_info :=
  {| mi_path := path;
     mi_description := EmptyString;
     mi_options := EmptyString;
     mi_supported_protocols := ["smb"] |}.

(** Modelled from the spec: [parse_targets] lives in [nxc/parsers/ip.py];
    a literal host is its own normalized address.  No files exist, one
    protocol is installed, servers start, handlers return, no Ctrl-C;
    the modules, what [init_module] makes of a path, and what the
    operator types are the arguments. *)
Definition make_world (mods : list (string * module_info))
  (init : string -> module_obj) (answers : list string) : World :=
  {| environ_KRB5CCNAME := None;
     ignore_opsec := false;
     is_file := fun _ => false;
     identify_target_file := fun _ => EmptyString;
     parse_nmap_xml := fun _ _ => [];
     parse_nessus_file := fun _ _ => [];
     read_lines := fun _ => [];
     parse_targets := fun t => [t];
     protocols := ["smb"];
     modules := mods;
     init_module := init;
     stdin := answers;
     http_server_new := fun _ => None;
     http_server_start := fun _ => None;
     handler := fun _ => Ret tt;
     interrupt := None |}.

(** A module that asks for nothing. *)
Definition plain_module (path : string) : module_obj :=
  {| mod_name := path;
     opsec_safe := true;
     multiple_hosts := true;
     has_on_request := false;
     has_has_response := false;
     required_server := None |}.

(** A module with an [on_request] hook. *)
Definition callback_module (path : string) : module_obj :=
  {| mod_name := path;
     opsec_safe := true;
     multiple_hosts := true;
     has_on_request := true;
     has_has_response := false;
     required_server := None |}.

(** A module that is not opsec safe. *)
Definition noisy_module (path : string) : module_obj :=
  {| mod_name := path;
     opsec_safe := false;
     multiple_hosts := true;
     has_on_request := false;
     has_has_response := false;
     required_server := None |}.

Definition quiet_world : World := make_world [] plain_module [].

Definition callback_world : World :=
  make_world [("a", module_at "a.py"); ("b", module_at "b.py")] callback_module [].

Definition noisy_world : World :=
  make_world [("a", module_at "a.py")] noisy_module ["n"].

(** [nxc smb <targets> ...] with 256 threads and the default server
    options. *)
Definition make_args (ids : option (list cred)) (targets : list string)
  (mods : list string) (listing progress_off : bool) : Args :=
  {| protocol := Some "smb";
     key_file := None;
     password := [];
     use_kcache := false;
     cred_id := ids;
     target := Some targets;
     clear_obfscripts := false;
     obfs := false;
     module := mods;
     list_modules := listing;
     show_module_options := false;
     server := "https";
     server_host := "0.0.0.0";
     server_port := None;
     ntds := false;
     userntds := false;
     no_progress := progress_off;
     threads := 256 |}.

Definition plain_args : Args := make_args (Some []) ["10.0.0.1"] [] false true.


(** A target file without a line in it. *)
Definition empty_file_world : World :=
  {| environ_KRB5CCNAME := None;
     ignore_opsec := false;
     is_file := String.eqb "hosts.txt";
     identify_target_file := fun _ => "txt";
     parse_nmap_xml := fun _ _ => [];
     parse_nessus_file := fun _ _ => [];
     read_lines := fun _ => [];
     parse_targets := fun t => [t];
     protocols := ["smb"];
     modules := [];
     init_module := plain_module;
     stdin := [];
     http_server_new := fun _ => None;
     http_server_start := fun _ => None;
     handler := fun _ => Ret tt;
     interrupt := None |}.

(** ** Vocabulary of the further properties *)

(** [s.count(c)] for a one-character [c]. *)
Fixpoint count_char (c : ascii) (s : string) : nat :=
  match s with
  | EmptyString => O
  | String a s' => if Ascii.eqb a c then S (count_char c s') else count_char c s'
  end.


(** The entries a command line can lead to: strings, and integers that
    are not negative. *)
Definition natural (x : cred) : Prop :=
  match x with
  | CStr _ => True
  | CInt n => 0 <= n
  end.

(** [inert], decided. *)
Definition inertb (x : cred) : bool := negb (Py.contains_char "-" (cred_str x)).

(** What the preconditions of lines 101-113 can log. *)
Definition is_precondition_error (e : event) : bool :=
  match e with
  | EvError LogSshPassword | EvError LogKrb5 => true
  | _ => false
  end.


(** What one examination does to a list: [Ret] leaves the entries
    without delimiter in place and adds integers that are not
    negative. *)
Definition extends (l l' : list cred) : Prop :=
  exists ints,
    filter inertb l' = filter inertb l ++ map CInt ints
    /\ Forall (fun n => 0 <= n) ints
    /\ forall s, In (CStr s) l' -> In (CStr s) l.

(** What [setup] can have logged or done by the time the protocol is
    looked up. *)
Definition is_early (e : event) : bool :=
  match e with
  | EvError LogSshPassword | EvError LogKrb5 | EvError LogCredId
  | EvClearObfuscated => true
  | _ => false
  end.

(** What the preconditions of lines 101-113 log when one fails;
    [None]: they all hold. *)
Definition precondition_error (w : World) (a : Args) : option (list event) :=
  if negb (truthy (protocol a)) then Some []
  else if String.eqb (protocol_name a) "ssh" && truthy (key_file a)
          && match password a with [] => true | _ :: _ => false end
       then Some [EvError LogSshPassword]
  else if use_kcache a && negb (truthy (environ_KRB5CCNAME w))
       then Some [EvError LogKrb5]
  else None.

(** How lines 119-129 leave [args.cred_id]. *)
Definition expansion (ids : option (list cred)) : outcome (option (list cred)) :=
  match ids with
  | Some (x :: l) =>
      match expand_cred_ids (x :: l) with
      | Ret l' => Ret (Some l')
      | Exit code => Exit code
      | Raise e => Raise e
      | Interrupt => Interrupt
      end
  | _ => Ret ids
  end.

(** Lines 101-175: [setup] up to the database engine. *)
Definition setup_prefix (w : World) (a : Args) : M unit :=
  preconditions w a ;;
  expand_step ;;
  targets_step w a ;;
  obfuscation_step a ;;
  load_protocol w a.

(** The state in which line 177 is reached from the command line [a]
    whose credential ids expanded to [ids]. *)
Definition loaded_state (w : World) (a : Args) (ids : option (list cred)) : state :=
  {| st_cred_id := ids;
     st_server := server a;
     st_server_port := server_port a;
     st_stdin := stdin w;
     st_targets := build_targets w (protocol_name a) (target a);
     st_module_server := None;
     st_servers := O;
     st_proto_server := None;
     st_proto_module := [];
     st_obfuscate := obfs a;
     st_trace := (if clear_obfscripts a then [EvClearObfuscated] else [])
                 ++ (if existsb (String.eqb (protocol_name a)) (protocols w)
                     then [EvDbEngine (protocol_name a)] else []) |}.

(** How lines 101-175 end, and where. *)
Definition prefix_result (w : World) (a : Args) : outcome unit * state :=
  match precondition_error w a with
  | Some evs => (Exit 1, add_events evs (initial_state w a))
  | None =>
      match expansion (cred_id a) with
      | Ret ids =>
          (if existsb (String.eqb (protocol_name a)) (protocols w)
           then Ret tt else Raise KeyError,
           loaded_state w a ids)
      | Exit code => (Exit code, add_events [EvError LogCredId] (initial_state w a))
      | Raise e => (Raise e, initial_state w a)
      | Interrupt => (Interrupt, initial_state w a)
      end
  end.

(** ** More worlds and command lines *)

Definition newline : string := String (ascii_of_nat 10) EmptyString.

(** Modelled from the spec, as [make_world]; here [hosts.txt] is a
    text file of two lines. *)
Definition hosts_file_world : World :=
  {| environ_KRB5CCNAME := None;
     ignore_opsec := false;
     is_file := String.eqb "hosts.txt";
     identify_target_file := fun _ => "txt";
     parse_nmap_xml := fun _ _ => [];
     parse_nessus_file := fun _ _ => [];
     read_lines := fun _ => [String.append " 10.0.0.1" newline;
                             String.append "10.0.0.2" newline];
     parse_targets := fun t => [t];
     protocols := ["smb"];
     modules := [];
     init_module := plain_module;
     stdin := [];
     http_server_new := fun _ => None;
     http_server_start := fun _ => None;
     handler := fun _ => Ret tt;
     interrupt := None |}.


(** The command line [a] with [--threads n]. *)
Definition with_threads (n : Z) (a : Args) : Args :=
  {| protocol := protocol a;
     key_file := key_file a;
     password := password a;
     use_kcache := use_kcache a;
     cred_id := cred_id a;
     target := target a;
     clear_obfscripts := clear_obfscripts a;
     obfs := obfs a;
     module := module a;
     list_modules := list_modules a;
     show_module_options := show_module_options a;
     server := server a;
     server_host := server_host a;
     server_port := server_port a;
     ntds := ntds a;
     userntds := userntds a;
     no_progress := no_progress a;
     threads := n |}.

(** The command line [a] with [--options]. *)
Definition with_show_options (a : Args) : Args :=
  {| protocol := protocol a;
     key_file := key_file a;
     password := password a;
     use_kcache := use_kcache a;
     cred_id := cred_id a;
     target := target a;
     clear_obfscripts := clear_obfscripts a;
     obfs := obfs a;
     module := module a;
     list_modules := list_modules a;
     show_module_options := true;
     server := server a;
     server_host := server_host a;
     server_port := server_port a;
     ntds := ntds a;
     userntds := userntds a;
     no_progress := no_progress a;
     threads := threads a |}.

(** The command line [a] with [--ntds]. *)
Definition with_ntds (a : Args) : Args :=
  {| protocol := protocol a;
     key_file := key_file a;
     password := password a;
     use_kcache := use_kcache a;
     cred_id := cred_id a;
     target := target a;
     clear_obfscripts := clear_obfscripts a;
     obfs := obfs a;
     module := module a;
     list_modules := list_modules a;
     show_module_options := show_module_options a;
     server := server a;
     server_host := server_host a;
     server_port := server_port a;
     ntds := true;
     userntds := userntds a;
     no_progress := no_progress a;
     threads := threads a |}.



(** [args.protocol in props["supported_protocols"]] *)
Definition supported_by (proto : string) (item : string * module_info) : bool :=
  existsb (String.eqb proto) (mi_supported_protocols (snd item)).

Definition display_module (item : string * module_info) : event :=
  EvDisplayModule (fst item) (mi_description (snd item)).

(** What [--list-modules] displays. *)
Definition listing (w : World) (a : Args) : list event :=
  map display_module (filter (supported_by (protocol_name a)) (sorted_items (modules w))).

(** The requested names up to the first one that is not a key of the
    dictionary, with their entries; [true]: all are keys. *)
Fixpoint known_prefix (mods : list (string * module_info)) (names : list string)
  : list (string * module_info) * bool :=
  match names with
  | [] => ([], true)
  | name :: rest =>
      match lookup name mods with
      | Some info =>
          let (items, all) := known_prefix mods rest in ((name, info) :: items, all)
      | None => ([], false)
      end
  end.

Definition display_options (item : string * module_info) : event :=
  EvDisplayOptions (fst item) (mi_options (snd item)).

(** The entries of the dictionary under the lower-cased requested
    names, if all are there. *)
Definition requested (w : World) (names : list string) (infos : list module_info) : Prop :=
  map (fun name => lookup (Py.lower name) (modules w)) names = map Some infos.

(** The fields of the state that lines 177-263 leave alone. *)
Definition same_inputs (s0 s : state) : Prop :=
  st_cred_id s = st_cred_id s0
  /\ st_obfuscate s = st_obfuscate s0
  /\ st_targets s = st_targets s0.

(** The lines read from standard input, in order. *)
Definition answers (tr : list event) : list string :=
  flat_map (fun e => match e with EvPrompt _ (Some ans) => [ans] | _ => [] end) tr.


(** What was read and what is left are the input. *)
Definition stdin_read (w : World) (s : state) : Prop :=
  answers (st_trace s) ++ st_stdin s = stdin w.




(** Some requested module, looked up under its lower-cased name, is
    made into an object for which [p] holds. *)
Definition requested_with (w : World) (a : Args) (p : module_obj -> bool) : bool :=
  existsb
    (fun name =>
       match lookup (Py.lower name) (modules w) with
       | Some info => p (init_module w (mi_path info))
       | None => false
       end)
    (module a).

(** The prompts the command line and the configuration give
    occasion for. *)
Definition prompt_expected (w : World) (a : Args) (e : event) : bool :=
  match e with
  | EvPrompt PromptOpsec _ =>
      negb (ignore_opsec w) && requested_with w a (fun m => negb (opsec_safe m))
  | EvPrompt PromptMultipleHosts _ =>
      (1 <? List.length (build_targets w (protocol_name a) (target a)))%nat
      && requested_with w a (fun m => negb (multiple_hosts m))
  | EvPrompt PromptNtds _ => ntds a && negb (userntds a)
  | _ => true
  end.

Definition prompts_expected (w : World) (a : Args) (s : state) : Prop :=
  all_events (prompt_expected w a) s
  /\ st_targets s = build_targets w (protocol_name a) (target a).

(** Every server so far was made for the configured host and for the
    port [args.server_port] now holds, which is set; a port given on
    the command line is still the one. *)
Definition servers_share (a : Args) (s : state) : Prop :=
  (port_unset (server_port a) = false -> st_server_port s = server_port a)
  /\ forall id h p k,
       In (EvServerNew id h p k) (st_trace s) ->
       h = server_host a /\ p = st_server_port s /\ port_unset p = false.

Definition is_db_engine (e : event) : bool :=
  match e with
  | EvDbEngine _ => true
  | _ => false
  end.

Definition is_db_dispose (e : event) : bool :=
  match e with
  | EvDbDispose => true
  | _ => false
  end.

(** A module with an [on_request] hook that wants a server of a kind
    the table of line 117 does not have. *)
Definition ftp_module (path : string) : module_obj :=
  {| mod_name := path;
     opsec_safe := true;
     multiple_hosts := true;
     has_on_request := true;
     has_has_response := false;
     required_server := Some "ftp" |}.

(** The modules attached so far. *)
Definition modules_are (L : list module_obj) (s : state) : Prop :=
  st_proto_module s = L.


(** * Properties *)

(** ** Python built-ins *)

Module PyFacts.
Import Py.

Example split_range : split "-" "5-7" = ["5"; "7"].
Proof. reflexivity. Qed.

Example split_three : split "-" "1-2-3" = ["1"; "2"; "3"].
Proof. reflexivity. Qed.

Example split_leading : split "-" "-3" = [EmptyString; "3"].
Proof. reflexivity. Qed.

Example split_none : split "-" "9" = ["9"].
Proof. reflexivity. Qed.

Example int_plain : int "42" = Some 42.
Proof. reflexivity. Qed.

Example int_blanks_sign_underscore : int " +1_000 " = Some 1000.
Proof. reflexivity. Qed.

Example int_negative : int "-8" = Some (-8).
Proof. reflexivity. Qed.

Example int_empty : int EmptyString = None.
Proof. reflexivity. Qed.

Example int_letter : int "x" = None.
Proof. reflexivity. Qed.

Example int_double_underscore : int "1__0" = None.
Proof. reflexivity. Qed.

Example int_trailing_underscore : int "1_" = None.
Proof. reflexivity. Qed.

Example str_of_int_negative : str_of_int (-120) = "-120".
Proof. reflexivity. Qed.

Example str_of_int_zero : str_of_int 0 = "0".
Proof. reflexivity. Qed.

Example range_5_7 : range 5 (7 + 1) = [5; 6; 7].
Proof. reflexivity. Qed.

Example range_descending : range 5 (3 + 1) = [].
Proof. reflexivity. Qed.

Example lower_mixed : lower "YeS" = "yes".
Proof. reflexivity. Qed.

Example strip_line : strip "  10.0.0.1 " = "10.0.0.1".
Proof. reflexivity. Qed.

Lemma contains_char_uint (d : uint) :
  contains_char "-" (NilEmpty.string_of_uint d) = false.
Proof. induction d; simpl; auto. Qed.

Lemma contains_char_str_of_int (n : Z) :
  contains_char "-" (str_of_int n) = (n <? 0).
Proof.
  unfold str_of_int, NilZero.string_of_int, NilZero.string_of_uint.
  destruct n as [|p|p]; simpl.
  - reflexivity.
  - destruct (Pos.to_uint p); try reflexivity; simpl; apply contains_char_uint.
  - destruct (Pos.to_uint p); try reflexivity; simpl; apply contains_char_uint.
Qed.

Lemma split_nonempty (c : ascii) (s : string) : split c s <> [].
Proof.
  destruct s as [|a s]; simpl; [discriminate|].
  destruct (Ascii.eqb a c); [discriminate|].
  destruct (split c s); discriminate.
Qed.

Lemma split_no_sep (c : ascii) (s : string) :
  contains_char c s = false -> split c s = [s].
Proof.
  induction s as [|a s IH]; simpl; intros H; [reflexivity|].
  apply orb_false_iff in H as [Ha Hs].
  rewrite Ha, (IH Hs). reflexivity.
Qed.

Lemma split_pieces (c : ascii) (s p : string) :
  In p (split c s) -> contains_char c p = false.
Proof.
  revert p. induction s as [|a s IH]; simpl; intros p H.
  - destruct H as [<-|[]]. reflexivity.
  - destruct (Ascii.eqb a c) eqn:E.
    + destruct H as [<-|H]; [reflexivity|auto].
    + destruct (split c s) as [|q qs] eqn:Es.
      * destruct H as [<-|[]]. simpl. rewrite E. reflexivity.
      * destruct H as [<-|H].
        -- simpl. rewrite E. simpl. apply IH. left. reflexivity.
        -- apply IH. right. exact H.
Qed.


Lemma lstrip_contains (c : ascii) (s : string) :
  contains_char c s = false -> contains_char c (lstrip s) = false.
Proof.
  induction s as [|a s IH]; simpl; intros H; [reflexivity|].
  apply orb_false_iff in H as [Ha Hs].
  destruct (is_space a); [auto|]. simpl. rewrite Ha, Hs. reflexivity.
Qed.

Lemma rstrip_contains (c : ascii) (s : string) :
  contains_char c s = false -> contains_char c (rstrip s) = false.
Proof.
  induction s as [|a s IH]; simpl; intros H; [reflexivity|].
  apply orb_false_iff in H as [Ha Hs]. specialize (IH Hs).
  destruct (rstrip s) as [|b r].
  - destruct (is_space a); simpl; [reflexivity|]. rewrite Ha. reflexivity.
  - simpl. rewrite Ha. simpl. exact IH.
Qed.

Lemma strip_contains (c : ascii) (s : string) :
  contains_char c s = false -> contains_char c (strip s) = false.
Proof. intros H. apply rstrip_contains, lstrip_contains, H. Qed.

Lemma digit_of_nonneg (a : ascii) (d : Z) : digit_of a = Some d -> 0 <= d.
Proof.
  unfold digit_of. destruct (_ && _); [|discriminate].
  intros [= <-]. lia.
Qed.

Lemma parse_digits_nonneg (s : string) :
  forall acc b z, 0 <= acc -> parse_digits acc b s = Some z -> 0 <= z.
Proof.
  induction s as [|a s IH]; simpl; intros acc b z Hacc H.
  - destruct b; [injection H as <-; exact Hacc | discriminate].
  - destruct (digit_of a) as [d|] eqn:Ed.
    + apply (IH (10 * acc + d) true); [|exact H].
      apply digit_of_nonneg in Ed. lia.
    + destruct (Ascii.eqb a "_" && b); [|discriminate].
      apply (IH acc false); assumption.
Qed.

(** An integer literal without a minus sign is not negative. *)
Lemma int_nonneg (s : string) (z : Z) :
  contains_char "-" s = false -> int s = Some z -> 0 <= z.
Proof.
  intros Hs. apply (strip_contains "-") in Hs. unfold int.
  destruct (strip s) as [|a r] eqn:E.
  - apply (parse_digits_nonneg _ 0 false); lia.
  - destruct (Ascii.eqb a "-") eqn:Ea.
    + simpl in Hs. rewrite Ea in Hs. discriminate.
    + assert (Hgen : forall t, parse_digits 0 false t = Some z -> 0 <= z)
        by (intros t; apply parse_digits_nonneg; lia).
      destruct a as [[] [] [] [] [] [] [] []]; try (apply Hgen);
        try discriminate Ea.
Qed.


Lemma range_In (lo hi k : Z) : In k (range lo hi) <-> lo <= k < hi.
Proof.
  unfold range. rewrite in_map_iff. split.
  - intros (n & <- & Hn). apply in_seq in Hn. lia.
  - intros H. exists (Z.to_nat (k - lo)). split; [lia|].
    apply in_seq. lia.
Qed.

Lemma range_nth (lo hi : Z) (n : nat) :
  (n < Z.to_nat (hi - lo))%nat ->
  nth_error (range lo hi) n = Some (lo + Z.of_nat n).
Proof.
  intros H. unfold range.
  rewrite nth_error_map, nth_error_seq.
  destruct (Nat.ltb_spec n (Z.to_nat (hi - lo))); [reflexivity|lia].
Qed.

Lemma range_empty (lo hi : Z) : hi <= lo -> range lo hi = [].
Proof. intros H. unfold range. replace (Z.to_nat (hi - lo)) with O by lia. reflexivity. Qed.

End PyFacts.

(** ** Credential-id expansion *)

Module CredIds.
Import Py PyFacts.

Lemma aborts_status {A : Type} (o : outcome A) : aborts o -> exit_status o = 1.
Proof. destruct o; simpl; intros H; [contradiction | exact H | reflexivity | contradiction]. Qed.

Lemma cred_eqb_eq (x y : cred) : cred_eqb x y = true <-> x = y.
Proof.
  destruct x, y; simpl; split; intros H; try discriminate.
  - apply String.eqb_eq in H. congruence.
  - injection H as ->. apply String.eqb_refl.
  - apply Z.eqb_eq in H. congruence.
  - injection H as ->. apply Z.eqb_refl.
Qed.


Lemma expand_entry_inert (l : list cred) (x : cred) :
  inert x -> expand_entry l x = Ret l.
Proof. unfold inert, expand_entry. intros ->. reflexivity. Qed.

Lemma inert_int (n : Z) : 0 <= n -> inert (CInt n).
Proof.
  intros H. unfold inert. simpl. rewrite contains_char_str_of_int.
  apply Z.ltb_ge. exact H.
Qed.


(** *** Removal *)


Lemma list_remove_measure (x : cred) (l l' : list cred) :
  list_remove x l = Some l' ->
  List.length l = S (List.length l')
  /\ weight l = (entry_weight x + weight l')%nat.
Proof.
  revert l'. induction l as [|y l IH]; simpl; intros l' H; [discriminate|].
  destruct (cred_eqb y x) eqn:E.
  - injection H as <-. apply cred_eqb_eq in E. subst y. split; reflexivity.
  - destruct (list_remove x l) as [l2|]; [|discriminate].
    injection H as <-. destruct (IH l2 eq_refl) as [Hl Hw].
    simpl. rewrite Hl, Hw. split; lia.
Qed.

Lemma weight_app (l1 l2 : list cred) : weight (l1 ++ l2) = (weight l1 + weight l2)%nat.
Proof. induction l1 as [|x l1 IH]; simpl; [reflexivity|]. rewrite IH. lia. Qed.

Lemma weight_ints (zs : list Z) : weight (map CInt zs) = O.
Proof. induction zs; simpl; auto. Qed.





(** *** The loop *)

Lemma expand_loop_S (fuel : nat) (l : list cred) (i : nat) :
  expand_loop (S fuel) l i
  = match nth_error l i with
    | None => Some (Ret l)
    | Some x =>
        match expand_entry l x with
        | Ret l' => expand_loop fuel l' (S i)
        | Exit code => Some (Exit code)
        | Raise e => Some (Raise e)
        | Interrupt => Some Interrupt
        end
    end.
Proof. reflexivity. Qed.

Lemma expand_loop_mono (fuel : nat) :
  forall fuel' l i r,
    expand_loop fuel l i = Some r -> (fuel <= fuel')%nat ->
    expand_loop fuel' l i = Some r.
Proof.
  induction fuel as [|fuel IH]; intros fuel' l i r H Hle; [discriminate|].
  destruct fuel' as [|fuel']; [lia|]. simpl in *.
  destruct (nth_error l i) as [x|]; [|exact H].
  destruct (expand_entry l x); [|exact H|exact H|exact H].
  apply IH; [exact H|lia].
Qed.

Lemma expand_entry_measure (l l' : list cred) (x : cred) :
  In x l -> expand_entry l x = Ret l' ->
  (l' = l \/
   ((weight l' < weight l)%nat /\
    (S (List.length l' + weight l') < List.length l + weight l)%nat)).
Proof.
  intros Hin. unfold expand_entry.
  destruct (contains_char "-" (cred_str x)); [|intros [= <-]; left; reflexivity].
  destruct x as [s|n]; [|discriminate].
  destruct (split "-" s) as [|sa [|sb [|? ?]]] eqn:Es; try discriminate.
  destruct (int sa) as [a|] eqn:Ea; [|discriminate].
  destruct (int sb) as [b|] eqn:Eb; [|discriminate].
  destruct (list_remove _ _) as [l2|] eqn:Er; [|discriminate].
  intros [= <-]. right.
  apply list_remove_measure in Er as [Hl Hw].
  rewrite length_app, length_map in Hl.
  rewrite weight_app, weight_ints in Hw.
  simpl in Hw. rewrite Es, Ea, Eb in Hw. lia.
Qed.

Lemma expand_loop_enough (fuel : nat) :
  forall l i,
    (List.length l - i + weight l < fuel)%nat -> expand_loop fuel l i <> None.
Proof.
  induction fuel as [|fuel IH]; intros l i H; [lia|]. simpl.
  destruct (nth_error l i) as [x|] eqn:En; [|discriminate].
  assert (Hi : (i < List.length l)%nat)
    by (apply nth_error_Some; congruence).
  destruct (expand_entry l x) as [l'| | |] eqn:Ee; try discriminate.
  apply IH.
  destruct (expand_entry_measure l l' x (nth_error_In _ _ En) Ee) as [->|[Hw Hm]]; lia.
Qed.

(** The bound of [expand_cred_ids] is enough. *)
Lemma expand_loop_fuel_bound (l : list cred) : expand_loop (fuel_bound l) l 0 <> None.
Proof. apply expand_loop_enough. unfold fuel_bound. lia. Qed.

(** Whatever some run of the loop returns, [expand_cred_ids] returns. *)
Lemma expand_cred_ids_spec (l : list cred) (fuel : nat) (r : outcome (list cred)) :
  expand_loop fuel l 0 = Some r -> expand_cred_ids l = r.
Proof.
  intros H. unfold expand_cred_ids.
  destruct (expand_loop (fuel_bound l) l 0) as [r'|] eqn:E.
  - destruct (Nat.le_ge_cases fuel (fuel_bound l)) as [Hle|Hle].
    + rewrite (expand_loop_mono _ _ _ _ _ H Hle) in E. congruence.
    + rewrite (expand_loop_mono _ _ _ _ _ E Hle) in H. congruence.
  - exfalso. exact (expand_loop_fuel_bound l E).
Qed.

(** The loop always ends. *)
Lemma expand_cred_ids_terminates (l : list cred) :
  exists fuel, expand_loop fuel l 0 = Some (expand_cred_ids l).
Proof.
  exists (fuel_bound l). unfold expand_cred_ids.
  destruct (expand_loop (fuel_bound l) l 0) eqn:E; [reflexivity|].
  exfalso. exact (expand_loop_fuel_bound l E).
Qed.

Lemma expand_entry_not_interrupt (l : list cred) (x : cred) :
  expand_entry l x <> Interrupt.
Proof.
  unfold expand_entry.
  destruct (contains_char "-" (cred_str x)); [|discriminate].
  destruct x as [s|k]; [|discriminate].
  destruct (split "-" s) as [|sa [|sb [|? ?]]]; try discriminate.
  destruct (int sa); [destruct (int sb)|]; try discriminate.
  destruct (list_remove _ _); discriminate.
Qed.

Lemma expand_loop_not_interrupt (fuel : nat) :
  forall l i, expand_loop fuel l i <> Some Interrupt.
Proof.
  induction fuel as [|fuel IH]; intros l i; [discriminate|].
  simpl. destruct (nth_error l i) as [x|]; [|discriminate].
  destruct (expand_entry l x) as [l'|n|e|] eqn:E; try discriminate.
  - apply IH.
  - exfalso. exact (expand_entry_not_interrupt l x E).
Qed.

(** The expansion itself is never interrupted. *)
Lemma expand_cred_ids_not_interrupt (l : list cred) : expand_cred_ids l <> Interrupt.
Proof.
  intros H. destruct (expand_cred_ids_terminates l) as [fuel E].
  rewrite H in E. exact (expand_loop_not_interrupt _ _ _ E).
Qed.

Lemma expand_loop_past (fuel : nat) (l : list cred) (i : nat) :
  (List.length l <= i)%nat -> expand_loop (S fuel) l i = Some (Ret l).
Proof.
  intros H. simpl. apply nth_error_None in H. rewrite H. reflexivity.
Qed.

Lemma nth_error_middle (done rest : list cred) (x : cred) :
  nth_error (done ++ x :: rest) (List.length done) = Some x.
Proof.
  rewrite nth_error_app2 by lia. rewrite Nat.sub_diag. reflexivity.
Qed.

(** Passing over inert entries changes nothing. *)
Lemma expand_loop_skip (mid : list cred) :
  forall done rest fuel,
    Forall inert mid ->
    expand_loop (List.length mid + fuel) (done ++ mid ++ rest) (List.length done)
    = expand_loop fuel (done ++ mid ++ rest) (List.length done + List.length mid).
Proof.
  induction mid as [|x mid IH]; intros done rest fuel H.
  - simpl. rewrite Nat.add_0_r. reflexivity.
  - inversion H as [|? ? Hx Hmid]; subst.
    cbn [List.length Nat.add expand_loop].
    change ((x :: mid) ++ rest) with (x :: mid ++ rest).
    rewrite nth_error_middle, (expand_entry_inert _ _ Hx).
    specialize (IH (done ++ [x]) rest fuel Hmid).
    rewrite <- !app_assoc, length_app in IH. simpl in IH.
    rewrite Nat.add_1_r in IH. rewrite IH. f_equal. lia.
Qed.

Lemma expand_loop_skip_prefix (pre rest : list cred) (fuel : nat) :
  Forall inert pre ->
  expand_loop (List.length pre + fuel) (pre ++ rest) 0
  = expand_loop fuel (pre ++ rest) (List.length pre).
Proof. intros H. exact (expand_loop_skip pre [] rest fuel H). Qed.

Lemma expand_loop_inert_tail (done mid : list cred) (fuel : nat) :
  Forall inert mid -> (List.length mid < fuel)%nat ->
  expand_loop fuel (done ++ mid) (List.length done) = Some (Ret (done ++ mid)).
Proof.
  intros H Hf.
  replace fuel with (List.length mid + S (fuel - List.length mid - 1))%nat by lia.
  pose proof (expand_loop_skip mid done [] (S (fuel - List.length mid - 1)) H) as E.
  rewrite app_nil_r in E. rewrite E.
  apply expand_loop_past. rewrite length_app. lia.
Qed.



Lemma expand_from_start (pre rest : list cred) (fuel : nat) (r : outcome (list cred)) :
  Forall inert pre ->
  expand_loop fuel (pre ++ rest) (List.length pre) = Some r ->
  expand_cred_ids (pre ++ rest) = r.
Proof.
  intros H E. apply (expand_cred_ids_spec _ (List.length pre + fuel)).
  rewrite (expand_loop_skip_prefix pre rest fuel H). exact E.
Qed.



(** The first entry with a delimiter is examined; if it is not a
    well-formed range, the run is over. *)
Lemma expand_cred_ids_malformed (pre rest : list cred) (s : string) :
  Forall inert pre ->
  contains_char "-" s = true -> well_formed_range s = false ->
  aborts (expand_cred_ids (pre ++ CStr s :: rest)).
Proof.
  intros Hpre Hs Hwf.
  assert (E : exists r, expand_loop 1 (pre ++ CStr s :: rest) (List.length pre) = Some r
                        /\ aborts r).
  { rewrite expand_loop_S, nth_error_middle.
    unfold expand_entry. cbn [cred_str]. rewrite Hs.
    unfold well_formed_range in Hwf.
    destruct (split "-" s) as [|sa [|sb [|? ?]]];
      try (eexists; split; [reflexivity|exact I]).
    destruct (int sa); [destruct (int sb); [discriminate|]|];
      eexists; split; try reflexivity; reflexivity. }
  destruct E as (r & E & Hr).
  rewrite (expand_from_start _ _ _ _ Hpre E). exact Hr.
Qed.




End CredIds.

(** ** Reasoning about runs *)

Module Run.

Lemma add_events_nil (s : state) : add_events [] s = s.
Proof. destruct s. unfold add_events, set_trace. simpl. rewrite app_nil_r. reflexivity. Qed.

Lemma add_events_app (evs1 evs2 : list event) (s : state) :
  add_events evs2 (add_events evs1 s) = add_events (evs1 ++ evs2) s.
Proof. unfold add_events, set_trace. simpl. rewrite app_assoc. reflexivity. Qed.

Lemma emit_run (e : event) (s : state) : emit e s = (Ret tt, add_events [e] s).
Proof. reflexivity. Qed.

Section Rules.
Context (I : state -> Prop) (E : Z -> state -> Prop).

Lemma inv_ret {A : Type} (a : A) : inv I E (ret a).
Proof. intros s H. exact H. Qed.

Lemma inv_raise {A : Type} (e : exn) : inv I E (@raise A e).
Proof. intros s H. exact H. Qed.

Lemma inv_exit {A : Type} (n : Z) : (forall s, I s -> E n s) -> inv I E (@exit A n).
Proof. intros HE s H. exact (HE s H). Qed.

Lemma inv_get : inv I E get.
Proof. intros s H. exact H. Qed.

Lemma inv_call (r : option exn) : inv I E (call r).
Proof. intros s H. destruct r; exact H. Qed.

Lemma inv_modify (f : state -> state) :
  (forall s, I s -> I (f s)) -> inv I E (modify f).
Proof. intros Hf s H. exact (Hf s H). Qed.

Lemma inv_emit (e : event) :
  (forall s, I s -> I (add_events [e] s)) -> inv I E (emit e).
Proof. intros He s H. exact (He s H). Qed.

Lemma inv_bind {A B : Type} (c : M A) (k : A -> M B) :
  inv I E c -> (forall a, inv I E (k a)) -> inv I E (bind c k).
Proof.
  intros Hc Hk s H. unfold bind. specialize (Hc s H).
  destruct (c s) as [[a|n|e|] s']; [exact (Hk a s' Hc) | exact Hc ..].
Qed.

Lemma inv_for_each {A : Type} (l : list A) (body : A -> M unit) :
  (forall x, In x l -> inv I E (body x)) -> inv I E (for_each l body).
Proof.
  induction l as [|x l IH]; intros Hb; simpl.
  - apply inv_ret.
  - apply inv_bind; [apply Hb; left; reflexivity|].
    intros _. apply IH. intros y Hy. apply Hb. right. exact Hy.
Qed.

Lemma inv_try_except_Exception (c : M unit) (h : exn -> M unit) :
  inv I E c -> (forall e, inv I E (h e)) -> inv I E (try_except_Exception c h).
Proof.
  intros Hc Hh s H. unfold try_except_Exception. specialize (Hc s H).
  destruct (c s) as [[a|n|e|] s']; try exact Hc.
  exact (Hh e s' Hc).
Qed.

Lemma inv_try_except_KeyboardInterrupt (c h : M unit) :
  inv I E c -> inv I E h -> inv I E (try_except_KeyboardInterrupt c h).
Proof.
  intros Hc Hh s H. unfold try_except_KeyboardInterrupt. specialize (Hc s H).
  destruct (c s) as [[a|n|e|] s']; try exact Hc.
  destruct Hc.
Qed.

End Rules.

(** Takes a piece of [main] apart down to its exits, events and
    assignments, which [leaf] must handle; [atom] is tried first on
    every piece. *)
Ltac inv_steps_with atom leaf :=
  repeat first
    [ atom
    | lazymatch goal with
      | |- inv _ _ (bind _ _) => apply inv_bind; [|intros ?]
      | |- inv _ _ (ret _) => apply inv_ret
      | |- inv _ _ (raise _) => apply inv_raise
      | |- inv _ _ keyboard_interrupt =>
          exfalso; eapply CredIds.expand_cred_ids_not_interrupt; eassumption
      | |- inv _ _ get => apply inv_get
      | |- inv _ _ (call _) => apply inv_call
      | |- inv _ _ (exit _) => apply inv_exit; leaf
      | |- inv _ _ (modify _) => apply inv_modify; leaf
      | |- inv _ _ (emit _) => apply inv_emit; leaf
      | |- inv _ _ (for_each _ _) => apply inv_for_each; intros ? ?
      | |- inv _ _ (try_except_Exception _ _) =>
          apply inv_try_except_Exception; [|intros ?]
      | |- inv _ _ (if ?b then _ else _) => destruct b eqn:?
      | |- inv _ _ (match ?x with _ => _ end) => destruct x eqn:?
      | |- inv _ _ (?f _ _ _) => unfold f
      | |- inv _ _ (?f _ _) => unfold f
      | |- inv _ _ (?f _) => unfold f
      | |- inv _ _ ?f => unfold f
      end ].

(** *** Invariants of a trace *)

Lemma all_events_add (p : event -> bool) (e : event) (s : state) :
  p e = true -> all_events p s -> all_events p (add_events [e] s).
Proof.
  unfold all_events. simpl. intros He H. apply Forall_app. split; [exact H|].
  constructor; [exact He|constructor].
Qed.

Lemma all_events_filter (p q : event -> bool) (s : state) :
  (forall e, p e = true -> q e = false) ->
  all_events p s -> filter q (st_trace s) = [].
Proof.
  unfold all_events. intros Hpq H. induction H as [|e tr He _ IH]; simpl.
  - reflexivity.
  - rewrite (Hpq e He). exact IH.
Qed.

Ltac trace_leaf :=
  first
    [ intros ? ?; assumption
    | intros ? ?; apply all_events_add; [reflexivity|assumption] ].

Lemma setup_events (w : World) (a : Args) :
  inv (all_events is_setup) (fun _ => all_events is_setup) (setup w a).
Proof. unfold setup. inv_steps_with fail trace_leaf. Qed.

End Run.

(** ** The dispatch engine *)

Module Dispatch.
Import Run.

Lemma bind_run {A B : Type} (c : M A) (k : A -> M B) (s : state) :
  bind c k s
  = match c s with
    | (Ret a, s') => k a s'
    | (Exit code, s') => (Exit code, s')
    | (Raise e, s') => (Raise e, s')
    | (Interrupt, s') => (Interrupt, s')
    end.
Proof. reflexivity. Qed.

Lemma submit_each_run (w : World) (targets : list string) :
  forall s,
    submit_each w targets s
    = (Ret (map (handler w) targets), add_events (map (submit_event w) targets) s).
Proof.
  induction targets as [|t ts IH]; intros s.
  - simpl. rewrite add_events_nil. reflexivity.
  - cbn [submit_each map]. rewrite bind_run. unfold submit at 1.
    rewrite bind_run, emit_run. cbn [ret]. rewrite bind_run, IH.
    rewrite add_events_app. reflexivity.
Qed.

Lemma submit_all_run (w : World) (targets : list string) (s : state) :
  submit_all w targets s
  = (match interrupt w with
     | None => Ret (map (handler w) targets)
     | Some _ => Interrupt
     end,
     add_events (map (submit_event w) (submitted w targets)) s).
Proof.
  unfold submit_all, submitted. destruct (interrupt w) as [k|].
  - rewrite bind_run, submit_each_run. reflexivity.
  - apply submit_each_run.
Qed.

Lemma for_each_emit {A : Type} (f : A -> event) (l : list A) :
  forall s, for_each l (fun x => emit (f x)) s = (Ret tt, add_events (map f l) s).
Proof.
  induction l as [|x l IH]; intros s.
  - simpl. rewrite add_events_nil. reflexivity.
  - cbn [for_each map]. rewrite bind_run, emit_run, IH, add_events_app. reflexivity.
Qed.

(** [start_run] only writes to the trace, and what it writes and
    how it ends are [run_events] and [run_outcome]. *)
Lemma start_run_run (w : World) (a : Args) (targets : list string) (s : state) :
  start_run w a targets s
  = (run_outcome w a, add_events (run_events w a targets) s).
Proof.
  unfold start_run, run_events, run_outcome, with_progress, with_executor,
    executor_new, pool_events, progress_updates.
  destruct (no_progress a || (List.length targets =? 1)%nat).
  - destruct (threads a + 1 <=? 0).
    + rewrite bind_run. cbn [raise]. rewrite add_events_nil. reflexivity.
    + rewrite bind_run, emit_run. unfold try_finally.
      rewrite bind_run, submit_all_run.
      destruct (interrupt w); cbn [ret]; rewrite emit_run, !add_events_app;
        reflexivity.
  - rewrite bind_run, emit_run. unfold try_finally at 1.
    destruct (threads a + 1 <=? 0).
    + rewrite bind_run. cbn [raise]. rewrite emit_run, !add_events_app. reflexivity.
    + rewrite bind_run, emit_run. unfold try_finally.
      rewrite bind_run, emit_run, bind_run, submit_all_run.
      destruct (interrupt w).
      * rewrite !emit_run, !add_events_app. cbn [app]. rewrite app_nil_l.
        reflexivity.
      * rewrite length_map, for_each_emit, !emit_run, !add_events_app.
        cbn [app]. reflexivity.
Qed.

End Dispatch.

(** ** [main] *)

Module Main.
Import Run Dispatch CredIds.

Lemma dispatch_run (w : World) (a : Args) (s : state) :
  dispatch w a s
  = (dispatch_outcome w a,
     add_events (run_events w a (st_targets s) ++ teardown_events s) s).
Proof.
  unfold dispatch, try_finally, try_except_KeyboardInterrupt, dispatch_outcome.
  rewrite bind_run. cbn [get]. rewrite start_run_run.
  assert (Ht : forall evs,
             teardown (add_events evs s)
             = (Ret tt, add_events (evs ++ teardown_events s) s)).
  { intros evs. unfold teardown, teardown_events. rewrite bind_run. cbn [get].
    change (st_module_server (add_events evs s)) with (st_module_server s).
    destruct (st_module_server s).
    - rewrite bind_run, !emit_run, !add_events_app. reflexivity.
    - rewrite bind_run. cbn [ret]. rewrite emit_run, add_events_app. reflexivity. }
  destruct (run_outcome w a) as [[]|n|e|]; cbn [ret]; rewrite Ht; reflexivity.
Qed.

Lemma main_run (w : World) (a : Args) :
  main w a
  = match setup_result w a with
    | (Ret _, s) => dispatch w a s
    | (Exit code, s) => (Exit code, s)
    | (Raise e, s) => (Raise e, s)
    | (Interrupt, s) => (Interrupt, s)
    end.
Proof. reflexivity. Qed.

Lemma initial_all_events (p : event -> bool) (w : World) (a : Args) :
  all_events p (initial_state w a).
Proof. constructor. Qed.

(** [setup] invokes no handler. *)
Lemma setup_no_dispatch (w : World) (a : Args) :
  dispatched (st_trace (snd (setup_result w a))) = [].
Proof.
  pose proof (setup_events w a (initial_state w a) (initial_all_events _ w a)) as H.
  unfold setup_result. apply (all_events_filter is_setup).
  - intros [] He; try discriminate He; reflexivity.
  - destruct (setup w a (initial_state w a)) as [[[]|n|e|] s];
      [exact H | exact H | exact H | destruct H].
Qed.

(** When [setup] does not return, the run is its run. *)
Lemma main_stops_in_setup (w : World) (a : Args) :
  aborts (fst (setup_result w a)) -> aborted_before_dispatch (main w a).
Proof.
  intros H. rewrite main_run. pose proof (setup_no_dispatch w a) as Hd.
  unfold aborted_before_dispatch.
  destruct (setup_result w a) as [[[]|n|e|] s]; simpl in *.
  - contradiction.
  - split; assumption.
  - split; [reflexivity|assumption].
  - contradiction.
Qed.

(** *** The preconditions *)

Lemma preconditions_run (w : World) (a : Args) (s : state) :
  preconditions w a s = (Ret tt, s)
  \/ exists s', preconditions w a s = (Exit 1, s').
Proof.
  unfold preconditions, check_protocol, check_ssh, check_kcache.
  rewrite bind_run.
  destruct (truthy (protocol a)); [|right; eexists; reflexivity].
  cbn [ret]. rewrite bind_run.
  destruct (String.eqb (protocol_name a) "ssh").
  - destruct (truthy (key_file a)).
    + destruct (password a); [right; eexists; reflexivity|].
      cbn [ret].
      destruct (use_kcache a && negb (truthy (environ_KRB5CCNAME w)));
        [right; eexists; reflexivity | left; reflexivity].
    + cbn [ret].
      destruct (use_kcache a && negb (truthy (environ_KRB5CCNAME w)));
        [right; eexists; reflexivity | left; reflexivity].
  - cbn [ret].
    destruct (use_kcache a && negb (truthy (environ_KRB5CCNAME w)));
      [right; eexists; reflexivity | left; reflexivity].
Qed.

Lemma setup_stops_in_preconditions (w : World) (a : Args) :
  (exists s', preconditions w a (initial_state w a) = (Exit 1, s')) ->
  aborts (fst (setup_result w a)).
Proof.
  intros [s' H]. unfold setup_result, setup. rewrite bind_run, H. reflexivity.
Qed.

(** *** Credential ids in [main] *)

Lemma expand_entry_exit_code (l : list cred) (x : cred) (n : Z) :
  expand_entry l x = Exit n -> n = 1.
Proof.
  unfold expand_entry.
  destruct (Py.contains_char "-" (cred_str x)); [|discriminate].
  destruct x as [s|k]; [|discriminate].
  destruct (Py.split "-" s) as [|sa [|sb [|? ?]]]; try discriminate.
  destruct (Py.int sa); [destruct (Py.int sb)|];
    try (intros [= <-]; reflexivity).
  destruct (list_remove _ _); [discriminate|]. intros [= <-]. reflexivity.
Qed.

Lemma expand_loop_exit_code (fuel : nat) :
  forall l i n, expand_loop fuel l i = Some (Exit n) -> n = 1.
Proof.
  induction fuel as [|fuel IH]; intros l i n H; [discriminate|].
  simpl in H. destruct (nth_error l i) as [x|]; [|discriminate].
  destruct (expand_entry l x) as [l'|m|e|] eqn:E.
  - exact (IH _ _ _ H).
  - injection H as <-. exact (expand_entry_exit_code _ _ _ E).
  - discriminate.
  - discriminate.
Qed.

Lemma expand_cred_ids_exit_code (l : list cred) (n : Z) :
  expand_cred_ids l = Exit n -> n = 1.
Proof.
  intros H. destruct (expand_cred_ids_terminates l) as [fuel E].
  rewrite H in E. exact (expand_loop_exit_code _ _ _ _ E).
Qed.

(** An expansion that aborts aborts the run. *)
Lemma main_stops_in_expansion (w : World) (a : Args) (x : cred) (l : list cred) :
  cred_id a = Some (x :: l) -> aborts (expand_cred_ids (x :: l)) ->
  aborted_before_dispatch (main w a).
Proof.
  intros Hc Hab. apply main_stops_in_setup.
  destruct (preconditions_run w a (initial_state w a)) as [H|H];
    [|exact (setup_stops_in_preconditions w a H)].
  unfold setup_result, setup. rewrite bind_run, H.
  rewrite bind_run. unfold expand_step at 1. rewrite bind_run. cbn [get].
  change (st_cred_id (initial_state w a)) with (cred_id a). rewrite Hc.
  destruct (expand_cred_ids (x :: l)) as [l'|n|e|]; simpl in Hab.
  - contradiction.
  - rewrite bind_run, emit_run. subst n. reflexivity.
  - exact I.
  - contradiction.
Qed.

(** An expansion that returns lets the run reach the targets. *)
Lemma setup_after_expansion (w : World) (a : Args) (l l' : list cred) :
  preconditions w a (initial_state w a) = (Ret tt, initial_state w a) ->
  cred_id a = Some l -> l <> [] -> expand_cred_ids l = Ret l' ->
  setup_result w a
  = (targets_step w a ;; obfuscation_step a ;; load_protocol w a ;;
     modules_step w a ;; ntds_gate a)%run
      (set_cred_id (Some l') (initial_state w a)).
Proof.
  intros Hp Hc Hl He. unfold setup_result, setup.
  rewrite bind_run, Hp. rewrite bind_run. unfold expand_step at 1.
  rewrite bind_run. cbn [get].
  change (st_cred_id (initial_state w a)) with (cred_id a). rewrite Hc.
  destruct l as [|x l]; [contradiction Hl; reflexivity|].
  rewrite He. reflexivity.
Qed.

End Main.

(** ** What [setup] guarantees *)

Module Setup.
Import Run Dispatch CredIds Main.

(** *** Exit codes *)

Ltac code_leaf :=
  intros; first
    [ reflexivity
    | congruence
    | eapply expand_cred_ids_exit_code; eassumption ].

(** Outside the two listing modes every [exit] of [setup] is an
    [exit(1)]. *)
Lemma setup_exit_codes (w : World) (a : Args) :
  list_modules a = false -> show_module_options a = false ->
  inv (fun _ => True) (fun n _ => n = 1) (setup w a).
Proof. intros Hl Hs. unfold setup. inv_steps_with fail code_leaf. Qed.

(** *** Unknown modules *)

Lemma never_returns_bind_l {A B : Type} (c : M A) (k : A -> M B) :
  never_returns c -> never_returns (bind c k).
Proof.
  intros H s. rewrite bind_run. specialize (H s).
  destruct (c s) as [[x|n|e|] s']; simpl in *; [contradiction|exact I ..].
Qed.

Lemma never_returns_bind_r {A B : Type} (c : M A) (k : A -> M B) :
  (forall x, never_returns (k x)) -> never_returns (bind c k).
Proof.
  intros H s. rewrite bind_run.
  destruct (c s) as [[x|n|e|] s']; simpl; [exact (H x s')|exact I ..].
Qed.

Lemma load_unknown_never_returns (w : World) (a : Args) (names : list string) (name : string) :
  In name names -> lookup name (modules w) = None ->
  never_returns (for_each names (load_module w a)).
Proof.
  intros Hin Hl. induction names as [|x names IH]; [destruct Hin|].
  cbn [for_each]. destruct Hin as [->|Hin].
  - apply never_returns_bind_l. intros s. unfold load_module. rewrite Hl.
    rewrite bind_run, emit_run. exact I.
  - apply never_returns_bind_r. intros _. exact (IH Hin).
Qed.

Lemma setup_unknown_module (w : World) (a : Args) (name : string) :
  list_modules a = false -> show_module_options a = false ->
  In name (module a) -> lookup (Py.lower name) (modules w) = None ->
  never_returns (setup w a).
Proof.
  intros Hl Hs Hin Hlook. unfold setup.
  do 5 (apply never_returns_bind_r; intros _).
  apply never_returns_bind_l.
  unfold modules_step. rewrite Hl.
  destruct (module a) as [|m ms] eqn:Em; [destruct Hin|].
  rewrite Hs. apply (load_unknown_never_returns w a _ (Py.lower name)).
  - apply in_map. exact Hin.
  - exact Hlook.
Qed.

(** *** Declined prompts *)

Lemma confirm_declined (k : prompt_kind) :
  inv (all_events not_declined)
      (fun n s => all_events not_declined s \/ n = 1) (confirm k).
Proof.
  intros s H. unfold confirm, input. rewrite bind_run, bind_run. cbn [get].
  destruct (st_stdin s) as [|ans rest].
  - rewrite bind_run, emit_run. cbn [raise].
    apply all_events_add; [reflexivity|exact H].
  - rewrite bind_run. cbn [modify]. rewrite bind_run, emit_run. cbn [ret].
    destruct (affirmative ans) eqn:Ea.
    + apply (all_events_add not_declined (EvPrompt k (Some ans))
               (set_stdin rest s)).
      * unfold not_declined. simpl. rewrite Ea. reflexivity.
      * exact H.
    + right. reflexivity.
Qed.

Ltac declined_leaf :=
  first
    [ intros ? ?; assumption
    | intros ? ?; left; assumption
    | intros ? ?; apply all_events_add; [reflexivity|assumption] ].

Ltac declined_atom :=
  idtac;
  lazymatch goal with
  | |- inv _ _ (confirm _) => apply confirm_declined
  end.

Lemma setup_declined (w : World) (a : Args) :
  inv (all_events not_declined)
      (fun n s => all_events not_declined s \/ n = 1) (setup w a).
Proof. unfold setup. inv_steps_with declined_atom declined_leaf. Qed.

Lemma all_events_not_in (p : event -> bool) (s : state) (e : event) :
  all_events p s -> In e (st_trace s) -> p e = true.
Proof. unfold all_events. rewrite Forall_forall. intros H Hin. exact (H e Hin). Qed.

(** A prompt answered with anything but yes ends the run with
    status 1 before dispatch. *)
Lemma main_declined (w : World) (a : Args) (k : prompt_kind) (ans : string) :
  In (EvPrompt k (Some ans)) (st_trace (snd (main w a))) ->
  affirmative ans = false ->
  fst (main w a) = Exit 1 /\ dispatched (st_trace (snd (main w a))) = [].
Proof.
  intros Hin Hans.
  assert (Hd : not_declined (EvPrompt k (Some ans)) = false)
    by (unfold not_declined; simpl; rewrite Hans; reflexivity).
  pose proof (setup_declined w a (initial_state w a) (initial_all_events _ w a)) as H.
  pose proof (setup_no_dispatch w a) as Hnd.
  rewrite main_run in *. fold (setup_result w a) in H.
  destruct (setup_result w a) as [[[]|n|e|] s]; simpl in Hnd.
  - exfalso. rewrite dispatch_run in Hin. simpl in Hin.
    apply in_app_or in Hin as [Hin|Hin].
    + rewrite (all_events_not_in _ _ _ H Hin) in Hd. discriminate.
    + apply in_app_or in Hin as [Hin|Hin].
      * unfold run_events, pool_events, progress_updates in Hin.
        repeat match type of Hin with
               | In _ (if ?b then _ else _) => destruct b
               | In _ (match ?x with _ => _ end) => destruct x
               | In _ (_ :: _) => destruct Hin as [Hin|Hin]; [discriminate Hin|]
               | In _ (_ ++ _) => apply in_app_or in Hin as [Hin|Hin]
               | In _ (map _ _) => apply in_map_iff in Hin as (? & Hin & _); discriminate Hin
               | In _ [] => destruct Hin
               end.
      * unfold teardown_events in Hin.
        destruct (st_module_server s); simpl in Hin;
          repeat (destruct Hin as [Hin|Hin]; [discriminate Hin|]); destruct Hin.
  - destruct H as [H| ->]; [|split; [reflexivity|exact Hnd]].
    exfalso. simpl in Hin.
    rewrite (all_events_not_in _ _ _ H Hin) in Hd. discriminate.
  - exfalso. simpl in Hin.
    rewrite (all_events_not_in _ _ _ H Hin) in Hd. discriminate.
  - destruct H.
Qed.

End Setup.

(** ** The callback server *)

Module Server.
Import Run Dispatch CredIds Main Setup.

Lemma start_module_server_run (w : World) (a : Args) (m : module_obj) (s : state) :
  start_module_server w a m s
  = let id := st_servers s in
    let s1 := set_servers (S id) s in
    let s2 := set_module_server (Some id) s1 in
    let new := EvServerNew id (server_host a) (st_server_port s) (st_server s) in
    let err := EvError (LogServerError (mod_name m)) in
    match http_server_new w id with
    | Some _ => (Ret tt, add_events [err] s1)
    | None =>
        match http_server_start w id with
        | Some _ => (Ret tt, add_events [new; err] s2)
        | None =>
            (Ret tt, set_proto_server (Some id) (add_events [new; EvServerStart id] s2))
        end
    end.
Proof.
  unfold start_module_server, try_except_Exception.
  rewrite bind_run. cbn [get]. rewrite bind_run. cbn [modify].
  rewrite bind_run. destruct (http_server_new w (st_servers s)) as [e|]; cbn [call raise ret].
  - rewrite emit_run. reflexivity.
  - rewrite bind_run. cbn [modify]. rewrite bind_run, emit_run, bind_run.
    destruct (http_server_start w (st_servers s)) as [e|]; cbn [call raise ret].
    + rewrite emit_run, add_events_app. reflexivity.
    + rewrite bind_run, emit_run. cbn [modify]. rewrite add_events_app. reflexivity.
Qed.

Lemma module_server_step_run (w : World) (a : Args) (m : module_obj) (s : state) :
  needs_server m = true ->
  module_server_step w a m s
  = let s1 := set_server (server_kind m s) s in
    if port_unset (st_server_port s) then
      match lookup (server_kind m s) server_port_dict with
      | Some p => start_module_server w a m (set_server_port (Some p) s1)
      | None => (Raise KeyError, s1)
      end
    else start_module_server w a m s1.
Proof.
  intros H. unfold module_server_step, server_kind. unfold needs_server in H. rewrite H.
  assert (Hs : forall s, set_server (st_server s) s = s) by (intros []; reflexivity).
  rewrite bind_run.
  destruct (required_server m) as [kind|]; cbn [modify ret];
    rewrite bind_run; cbn [get]; rewrite bind_run; cbn [st_server_port set_server];
    try rewrite Hs;
    (destruct (port_unset (st_server_port s));
     [ cbn [st_server set_server];
       destruct (lookup _ server_port_dict); reflexivity
     | reflexivity ]).
Qed.

(** *** Trace bookkeeping *)






Lemma run_events_kind (w : World) (a : Args) (targets : list string) (e : event) :
  In e (run_events w a targets) -> is_dispatch e || is_progress e = true.
Proof.
  unfold run_events, pool_events, progress_updates. intros Hin.
  repeat match type of Hin with
         | In _ (if ?b then _ else _) => destruct b
         | In _ (match ?x with _ => _ end) => destruct x
         | In _ (_ :: _) => destruct Hin as [<-|Hin]; [reflexivity|]
         | In _ (_ ++ _) => apply in_app_or in Hin as [Hin|Hin]
         | In _ (map _ _) => apply in_map_iff in Hin as (? & <- & _); reflexivity
         | In _ [] => destruct Hin
         end.
Qed.

Lemma flat_map_nil {A B : Type} (f : A -> list B) (l : list A) :
  (forall x, In x l -> f x = []) -> flat_map f l = [].
Proof.
  induction l as [|x l IH]; intros H; simpl; [reflexivity|].
  rewrite (H x) by (left; reflexivity). apply IH. intros y Hy. apply H. right. exact Hy.
Qed.


(** *** Invariants of [setup] *)






End Server.

Module ServerCount.
Import Run Dispatch CredIds Main Setup Server.














End ServerCount.

(** ** The safety gate *)

Module Gate.
Import Run Dispatch Main.

(** What [confirm] does with the next line of input. *)
Lemma confirm_run (k : prompt_kind) (s : state) (ans : string) (rest : list string) :
  st_stdin s = ans :: rest ->
  confirm k s
  = (if affirmative ans then Ret tt else Exit 1,
     add_events [EvPrompt k (Some ans)] (set_stdin rest s)).
Proof.
  intros H. unfold confirm, input. rewrite !bind_run. cbn [get]. rewrite H.
  rewrite bind_run. cbn [modify]. rewrite bind_run, emit_run. cbn [ret].
  destruct (affirmative ans); reflexivity.
Qed.

Lemma confirm_eof (k : prompt_kind) (s : state) :
  st_stdin s = [] ->
  confirm k s = (Raise EOFError, add_events [EvPrompt k None] s).
Proof.
  intros H. unfold confirm, input. rewrite !bind_run. cbn [get]. rewrite H.
  rewrite bind_run, emit_run. reflexivity.
Qed.

End Gate.

(** ** Targets *)

Module Targets.

Lemma fold_extend {A B : Type} (f : A -> list B) (l : list A) :
  forall acc, fold_left (fun acc x => acc ++ f x) l acc = acc ++ flat_map f l.
Proof.
  induction l as [|x l IH]; intros acc; simpl.
  - rewrite app_nil_r. reflexivity.
  - rewrite IH, app_assoc. reflexivity.
Qed.

Lemma add_target_extends (w : World) (proto : string) (targets : list string) (t : string) :
  add_target w proto targets t = targets ++ source_targets w proto t.
Proof.
  unfold add_target, source_targets.
  destruct (is_file w t); [|reflexivity].
  destruct (String.eqb _ "nmap"); [reflexivity|].
  destruct (String.eqb _ "nessus"); [reflexivity|].
  apply fold_extend.
Qed.

Lemma fold_add_target (w : World) (proto : string) (raw : list string) :
  forall acc,
    fold_left (add_target w proto) raw acc
    = acc ++ flat_map (source_targets w proto) raw.
Proof.
  induction raw as [|t raw IH]; intros acc; simpl.
  - rewrite app_nil_r. reflexivity.
  - rewrite IH, add_target_extends, app_assoc. reflexivity.
Qed.

(** The built list is the concatenation of the sources. *)
Lemma build_targets_concat (w : World) (proto : string) (raw : list string) :
  build_targets w proto (Some raw) = flat_map (source_targets w proto) raw.
Proof. unfold build_targets. apply fold_add_target. Qed.

Lemma count_occ_flat_map {A : Type} (f : A -> list string) (l : list A) (x : string) :
  count_occ string_dec (flat_map f l) x
  = list_sum (map (fun y => count_occ string_dec (f y) x) l).
Proof.
  induction l as [|y l IH]; simpl; [reflexivity|].
  rewrite count_occ_app, IH. reflexivity.
Qed.

End Targets.

(** * The specification, property by property *)

Import Run Dispatch CredIds Main Setup Server ServerCount Gate Targets.

(** ** Target set *)

(** C1, counterexample: three literal targets, two of them equal, build
    a list of three entries; the duplicate stays. *)
Lemma build_targets_keeps_duplicates :
  build_targets quiet_world "smb" (Some ["10.0.0.1"; "10.0.0.1"; "10.0.0.2"])
  = ["10.0.0.1"; "10.0.0.1"; "10.0.0.2"]
  /\ ~ NoDup (build_targets quiet_world "smb"
                (Some ["10.0.0.1"; "10.0.0.1"; "10.0.0.2"])).
Proof.
  split; [reflexivity|].
  intros H. inversion H as [|x l Hnot _]. apply Hnot. left. reflexivity.
Qed.

(** C1, amended: the built target list is the concatenation, in input
    order, of what each raw target yields (a literal through
    [parse_targets], a file through its parser); nothing is removed, so
    an address occurs in it as often as the sources yield it. *)
Theorem build_targets_concatenates (w : World) (proto : string) (raw : list string) :
  build_targets w proto (Some raw) = flat_map (source_targets w proto) raw
  /\ forall x,
       count_occ string_dec (build_targets w proto (Some raw)) x
       = list_sum (map (fun t => count_occ string_dec (source_targets w proto t) x) raw).
Proof.
  split; [apply build_targets_concat|].
  intros x. rewrite build_targets_concat. apply count_occ_flat_map.
Qed.

(** ** Credential ids *)

Example expand_5_7_9 :
  expand_cred_ids [CStr "5-7"; CStr "9"] = Ret [CStr "9"; CInt 5; CInt 6; CInt 7].
Proof. vm_compute. reflexivity. Qed.

Example expand_1_2_then_3_4 :
  expand_cred_ids [CStr "1-2"; CStr "3-4"] = Ret [CStr "3-4"; CInt 1; CInt 2].
Proof. vm_compute. reflexivity. Qed.

Example expand_1_2_3 : expand_cred_ids [CStr "1-2-3"] = Raise ValueError.
Proof. vm_compute. reflexivity. Qed.







(** ** Dispatch *)

Lemma dispatched_submits (w : World) (l : list string) :
  dispatched (map (submit_event w) l) = map (submit_event w) l.
Proof.
  unfold dispatched. induction l as [|t l IH]; [reflexivity|].
  cbn [map filter]. unfold submit_event at 1. cbn [is_dispatch].
  rewrite IH. reflexivity.
Qed.

Lemma dispatched_updates (w : World) (targets : list string) :
  dispatched (progress_updates w targets) = [].
Proof.
  unfold progress_updates. destruct (interrupt w); [reflexivity|].
  induction (seq 1 (List.length targets)) as [|n l IH]; simpl; [reflexivity|exact IH].
Qed.

Lemma run_events_dispatched (w : World) (a : Args) (targets : list string) :
  dispatched (run_events w a targets)
  = if threads a + 1 <=? 0 then [] else pool_events w a targets.
Proof.
  unfold run_events, pool_events.
  destruct (no_progress a || (List.length targets =? 1)%nat);
    destruct (threads a + 1 <=? 0); try reflexivity.
  - unfold dispatched. cbn [filter is_dispatch]. rewrite filter_app.
    fold (dispatched (map (submit_event w) (submitted w targets))).
    rewrite dispatched_submits. reflexivity.
  - unfold dispatched. cbn [app filter is_dispatch]. rewrite !filter_app.
    fold (dispatched (map (submit_event w) (submitted w targets))).
    fold (dispatched (progress_updates w targets)).
    rewrite dispatched_submits, dispatched_updates. reflexivity.
Qed.

Lemma invocations_dispatched (tr : list event) : invocations (dispatched tr) = invocations tr.
Proof.
  induction tr as [|e tr IH]; [reflexivity|].
  destruct e; simpl; try exact IH. rewrite IH. reflexivity.
Qed.

Lemma invocations_pool (w : World) (n : Z) (l : list string) :
  invocations (EvPool n :: map (submit_event w) l ++ [EvPoolJoin]) = l.
Proof. simpl. induction l as [|t l IH]; simpl; [reflexivity|]. rewrite IH. reflexivity. Qed.

Lemma run_events_progress (w : World) (a : Args) (targets : list string) :
  filter is_progress (run_events w a targets) <> []
  <-> no_progress a = false /\ List.length targets <> 1%nat.
Proof.
  unfold run_events.
  destruct (no_progress a) eqn:Ep; cbn [orb].
  - split; [|intros [H _]; discriminate H].
    intros H. exfalso. apply H.
    destruct (threads a + 1 <=? 0); [reflexivity|].
    unfold pool_events. cbn [filter is_progress]. rewrite filter_app. simpl.
    rewrite app_nil_r. induction (submitted w targets); simpl; auto.
  - destruct (Nat.eqb_spec (List.length targets) 1) as [E|E].
    + split; [|intros [_ H]; contradiction].
      intros H. exfalso. apply H.
      destruct (threads a + 1 <=? 0); [reflexivity|].
      unfold pool_events. cbn [filter is_progress]. rewrite filter_app. simpl.
      rewrite app_nil_r. induction (submitted w targets); simpl; auto.
    + split; [intros _; split; [reflexivity|exact E]|].
      intros _. destruct (threads a + 1 <=? 0); discriminate.
Qed.

(** With a pool size that the executor accepts, the dispatch part of
    what [start_run] writes is the pool, its submissions and the join,
    and [start_run] returns unless Ctrl-C came. *)
Lemma start_run_pool (w : World) (a : Args) (targets : list string) (s : state) :
  0 <= threads a ->
  start_run w a targets s
  = (match interrupt w with None => Ret tt | Some _ => Interrupt end,
     add_events (run_events w a targets) s)
  /\ dispatched (run_events w a targets)
     = EvPool (threads a + 1)
         :: map (fun t => EvSubmit t (handler w t)) (submitted w targets)
         ++ [EvPoolJoin].
Proof.
  intros Hw. rewrite start_run_run.
  assert (Hpool : (threads a + 1 <=? 0) = false) by (apply Z.leb_gt; lia).
  rewrite run_events_dispatched. unfold run_outcome. rewrite Hpool.
  split; reflexivity.
Qed.

(** C5: with a worker width [threads a >= 0], [start_run] creates one
    pool of [threads a + 1] workers, submits the handler once for each
    target in the order of the target list, and joins the pool before
    it returns; when Ctrl-C comes after [k] submissions, those [k] are
    joined all the same and [start_run] is left by the
    [KeyboardInterrupt]. *)
Theorem start_run_dispatches (w : World) (a : Args) (targets : list string) (s : state) :
  0 <= threads a ->
  exists evs,
    st_trace (snd (start_run w a targets s)) = st_trace s ++ evs
    /\ match interrupt w with
       | None =>
           fst (start_run w a targets s) = Ret tt
           /\ dispatched evs
              = EvPool (threads a + 1)
                  :: map (fun t => EvSubmit t (handler w t)) targets ++ [EvPoolJoin]
           /\ invocations evs = targets
       | Some k =>
           fst (start_run w a targets s) = Interrupt
           /\ dispatched evs
              = EvPool (threads a + 1)
                  :: map (fun t => EvSubmit t (handler w t)) (firstn k targets)
                  ++ [EvPoolJoin]
       end.
Proof.
  intros Hw. destruct (start_run_pool w a targets s Hw) as [Hr Hd].
  rewrite Hr. exists (run_events w a targets). split; [reflexivity|]. cbn [fst].
  unfold submitted in Hd. destruct (interrupt w) as [k|].
  - split; [reflexivity|exact Hd].
  - split; [reflexivity|]. split; [exact Hd|].
    rewrite <- invocations_dispatched, Hd. apply invocations_pool.
Qed.

Lemma start_run_dispatches_witness :
  0 <= threads plain_args
  /\ exists evs,
       st_trace (snd (start_run quiet_world plain_args ["10.0.0.1"; "10.0.0.2"]
                        (initial_state quiet_world plain_args)))
       = [] ++ evs
       /\ fst (start_run quiet_world plain_args ["10.0.0.1"; "10.0.0.2"]
                 (initial_state quiet_world plain_args)) = Ret tt
       /\ dispatched evs
          = [EvPool 257; EvSubmit "10.0.0.1" (Ret tt); EvSubmit "10.0.0.2" (Ret tt);
             EvPoolJoin]
       /\ invocations evs = ["10.0.0.1"; "10.0.0.2"].
Proof.
  assert (H : 0 <= threads plain_args) by (simpl; lia).
  split; [exact H|].
  exact (start_run_dispatches quiet_world plain_args ["10.0.0.1"; "10.0.0.2"]
           (initial_state quiet_world plain_args) H).
Defined.



(** C9, counterexample: with progress display on and a target file
    without a line in it there is no target, which is not "more than
    one target", and the run still opens the progress display and adds
    its task. *)
Lemma progress_rendered_without_targets :
  let r := main empty_file_world (make_args (Some []) ["hosts.txt"] [] false false) in
  st_targets (snd r) = []
  /\ filter is_progress (st_trace (snd r))
     = [EvProgressOpen; EvProgressTask 0; EvProgressClose]
  /\ invocations (st_trace (snd r)) = [].
Proof. vm_compute. repeat split. Qed.

(** C9, amended: [start_run] renders progress exactly when progress
    display is enabled and the number of targets is not 1 (so also for
    no target at all); whether it does changes neither how
    [start_run] ends nor what the dispatch engine does, pool size and
    submissions included; for a single target with progress disabled
    the handler is invoked exactly once and nothing of the progress
    display is written. *)
Theorem progress_is_dispatch_neutral (w : World) (a : Args)
        (targets : list string) (s : state) :
  exists evs,
    st_trace (snd (start_run w a targets s)) = st_trace s ++ evs
    /\ (filter is_progress evs <> []
        <-> no_progress a = false /\ List.length targets <> 1%nat)
    /\ (forall a',
           threads a' = threads a ->
           fst (start_run w a' targets s) = fst (start_run w a targets s)
           /\ exists evs',
                st_trace (snd (start_run w a' targets s)) = st_trace s ++ evs'
                /\ dispatched evs' = dispatched evs)
    /\ (forall t,
           targets = [t] -> no_progress a = true ->
           0 <= threads a -> interrupt w = None ->
           fst (start_run w a targets s) = Ret tt
           /\ invocations evs = [t]
           /\ filter is_progress evs = []).
Proof.
  exists (run_events w a targets). rewrite start_run_run.
  split; [reflexivity|]. split; [apply run_events_progress|]. split.
  - intros a' Ht. rewrite start_run_run. cbn [fst snd].
    split.
    + unfold run_outcome. rewrite Ht. reflexivity.
    + exists (run_events w a' targets). split; [reflexivity|].
      rewrite !run_events_dispatched. unfold pool_events. rewrite Ht. reflexivity.
  - intros t -> Hp Hw Hi. cbn [fst].
    assert (Hpool : (threads a + 1 <=? 0) = false) by (apply Z.leb_gt; lia).
    unfold run_outcome, run_events, pool_events, submitted.
    rewrite Hpool, Hi, Hp. repeat split.
Qed.

Lemma progress_is_dispatch_neutral_witness :
  fst (start_run quiet_world plain_args ["10.0.0.1"]
         (initial_state quiet_world plain_args)) = Ret tt
  /\ invocations
       (st_trace (snd (start_run quiet_world plain_args ["10.0.0.1"]
                         (initial_state quiet_world plain_args))))
     = ["10.0.0.1"]
  /\ filter is_progress
       (st_trace (snd (start_run quiet_world plain_args ["10.0.0.1"]
                         (initial_state quiet_world plain_args))))
     = [].
Proof.
  destruct (progress_is_dispatch_neutral quiet_world plain_args ["10.0.0.1"]
              (initial_state quiet_world plain_args))
    as (evs & Ht & _ & _ & H).
  assert (Hw : 0 <= threads plain_args) by (simpl; lia).
  destruct (H "10.0.0.1" eq_refl eq_refl Hw eq_refl) as (Ho & Hinv & Hp).
  rewrite Ht. repeat split; assumption.
Defined.

(** ** The safety gate *)

Lemma affirmative_spec (ans : string) :
  affirmative ans = true
  <-> Py.lower ans = "y" \/ Py.lower ans = "yes" \/ Py.lower ans = EmptyString.
Proof.
  unfold affirmative. cbn [existsb].
  rewrite orb_false_r, !orb_true_iff, !String.eqb_eq. reflexivity.
Qed.

(** C4: a module that is not opsec safe passes without a prompt when
    [ignore_opsec] is set, and otherwise costs one prompt; a module
    that does not support multiple hosts costs one prompt when there
    is more than one target and none for a single target; at either
    prompt an answer that does not lower-case to "y", "yes" or the
    empty string is [exit(1)] on the spot, and a run whose trace has
    such an answer ended with [exit(1)] before any dispatch. *)
Theorem safety_gate (w : World) (a : Args) (m : module_obj) (s : state) :
  (opsec_safe m = false -> ignore_opsec w = true ->
   opsec_gate w m s = (Ret tt, add_events [EvDisplayOpsecIgnored] s))
  /\ (opsec_safe m = false -> ignore_opsec w = false ->
      forall ans rest,
        st_stdin s = ans :: rest ->
        opsec_gate w m s
        = (if affirmative ans then Ret tt else Exit 1,
           add_events [EvPrompt PromptOpsec (Some ans)] (set_stdin rest s)))
  /\ (multiple_hosts m = false -> (1 < List.length (st_targets s))%nat ->
      forall ans rest,
        st_stdin s = ans :: rest ->
        multiple_hosts_gate m s
        = (if affirmative ans then Ret tt else Exit 1,
           add_events [EvPrompt PromptMultipleHosts (Some ans)] (set_stdin rest s)))
  /\ ((List.length (st_targets s) <= 1)%nat -> multiple_hosts_gate m s = (Ret tt, s))
  /\ (forall k ans,
         In (EvPrompt k (Some ans)) (st_trace (snd (main w a))) ->
         affirmative ans = false ->
         fst (main w a) = Exit 1 /\ dispatched (st_trace (snd (main w a))) = [])
  /\ (forall ans,
         affirmative ans = true
         <-> Py.lower ans = "y" \/ Py.lower ans = "yes" \/ Py.lower ans = EmptyString).
Proof.
  repeat split.
  - intros Hs Hi. unfold opsec_gate. rewrite Hs, Hi. reflexivity.
  - intros Hs Hi ans rest Hin. unfold opsec_gate. rewrite Hs, Hi.
    exact (confirm_run PromptOpsec s ans rest Hin).
  - intros Hm Hn ans rest Hin. unfold multiple_hosts_gate.
    rewrite bind_run. cbn [get]. rewrite Hm.
    apply Nat.ltb_lt in Hn. rewrite Hn.
    exact (confirm_run PromptMultipleHosts s ans rest Hin).
  - intros Hn. unfold multiple_hosts_gate. rewrite bind_run. cbn [get].
    apply Nat.ltb_ge in Hn. rewrite Hn, andb_false_r. reflexivity.
  - apply (main_declined w a k ans); assumption.
  - apply (main_declined w a k ans); assumption.
  - apply affirmative_spec.
  - apply affirmative_spec.
Qed.

Lemma safety_gate_witness :
  fst (main noisy_world (make_args (Some []) ["10.0.0.1"] ["A"] false true)) = Exit 1
  /\ dispatched
       (st_trace (snd (main noisy_world (make_args (Some []) ["10.0.0.1"] ["A"] false true))))
     = [].
Proof.
  destruct (safety_gate noisy_world (make_args (Some []) ["10.0.0.1"] ["A"] false true)
              (noisy_module "a.py")
              (initial_state noisy_world (make_args (Some []) ["10.0.0.1"] ["A"] false true)))
    as (_ & _ & _ & _ & H & _).
  apply (H PromptOpsec "n"); [|reflexivity].
  vm_compute. right. left. reflexivity.
Defined.

(** ** The callback server *)








(** ** Exit codes *)

Lemma main_without_protocol (w : World) (a : Args) :
  truthy (protocol a) = false -> aborted_before_dispatch (main w a).
Proof.
  intros H. apply main_stops_in_setup.
  unfold setup_result, setup, preconditions, check_protocol.
  rewrite !bind_run, H. reflexivity.
Qed.

Lemma main_ssh_key_without_password (w : World) (a : Args) :
  protocol a = Some "ssh" -> truthy (key_file a) = true -> password a = [] ->
  aborted_before_dispatch (main w a).
Proof.
  intros Hp Hk Hpw. apply main_stops_in_setup.
  unfold setup_result, setup, preconditions, check_protocol, check_ssh, protocol_name.
  rewrite !bind_run, Hp, Hk, Hpw. reflexivity.
Qed.

Lemma main_kcache_without_ccname (w : World) (a : Args) :
  use_kcache a = true -> truthy (environ_KRB5CCNAME w) = false ->
  aborted_before_dispatch (main w a).
Proof.
  intros Hk He. apply main_stops_in_setup.
  unfold setup_result, setup, preconditions, check_protocol, check_ssh, check_kcache.
  rewrite !bind_run, Hk, He. cbn [negb andb].
  destruct (truthy (protocol a)); [|reflexivity]. cbn [ret].
  destruct (String.eqb (protocol_name a) "ssh"); [|reflexivity].
  destruct (truthy (key_file a)); [|reflexivity].
  destruct (password a); reflexivity.
Qed.

Lemma main_unknown_module (w : World) (a : Args) (name : string) :
  list_modules a = false -> show_module_options a = false ->
  In name (module a) -> lookup (Py.lower name) (modules w) = None ->
  aborted_before_dispatch (main w a).
Proof.
  intros Hl Hs Hin Hlook. apply main_stops_in_setup.
  pose proof (setup_unknown_module w a name Hl Hs Hin Hlook (initial_state w a)) as Hn.
  pose proof (setup_exit_codes w a Hl Hs (initial_state w a) I) as Hc.
  unfold setup_result.
  destruct (setup w a (initial_state w a)) as [[[]|n|e|] s]; simpl in *;
    [contradiction | exact Hc | exact I | exact Hc].
Qed.

(** C6, counterexample: with [--list-modules] a requested module that
    does not exist is no error, the run lists the modules and ends
    with status 0; and the descending range ["7-5"] is no error
    either, the run dispatches and ends with status 0. *)
Lemma unknown_module_and_descending_range_exit_0 :
  exit_status
    (fst (main quiet_world (make_args (Some []) ["10.0.0.1"] ["nosuch"] true true))) = 0
  /\ (let r := main quiet_world (make_args (Some [CStr "7-5"]) ["10.0.0.1"] [] false true) in
      exit_status (fst r) = 0 /\ invocations (st_trace (snd r)) = ["10.0.0.1"]).
Proof. vm_compute. repeat split. Qed.

(** C6, amended: the run ends with status 1 and without any dispatch
    when the protocol name is missing; when the protocol is ssh with
    a key file and no password; when the Kerberos cache is asked for
    and KRB5CCNAME is not set; when the first credential id with a
    range delimiter does not split into two integer literals; when,
    outside the two listing modes, a requested module is not among
    the modules under its lower-cased name; and when a safety prompt
    is answered with anything but yes. *)
Theorem fatal_configuration_errors (w : World) (a : Args) :
  (truthy (protocol a) = false -> aborted_before_dispatch (main w a))
  /\ (protocol a = Some "ssh" -> truthy (key_file a) = true -> password a = [] ->
      aborted_before_dispatch (main w a))
  /\ (use_kcache a = true -> truthy (environ_KRB5CCNAME w) = false ->
      aborted_before_dispatch (main w a))
  /\ (forall pre s rest,
         cred_id a = Some (pre ++ CStr s :: rest) -> Forall inert pre ->
         Py.contains_char "-" s = true -> well_formed_range s = false ->
         aborted_before_dispatch (main w a))
  /\ (forall name,
         list_modules a = false -> show_module_options a = false ->
         In name (module a) -> lookup (Py.lower name) (modules w) = None ->
         aborted_before_dispatch (main w a))
  /\ (forall k ans,
         In (EvPrompt k (Some ans)) (st_trace (snd (main w a))) ->
         affirmative ans = false ->
         fst (main w a) = Exit 1 /\ dispatched (st_trace (snd (main w a))) = []).
Proof.
  split; [apply main_without_protocol|].
  split; [apply main_ssh_key_without_password|].
  split; [apply main_kcache_without_ccname|].
  split; [|split; [intros name; apply main_unknown_module
                  |intros k ans; apply main_declined]].
  intros pre s rest Hc Hpre Hs Hwf.
  pose proof (expand_cred_ids_malformed pre rest s Hpre Hs Hwf) as Hab.
  destruct (pre ++ CStr s :: rest) as [|c l] eqn:El; [destruct pre; discriminate El|].
  exact (main_stops_in_expansion w a c l Hc Hab).
Qed.

Lemma fatal_configuration_errors_witness :
  aborted_before_dispatch
    (main quiet_world (make_args (Some []) ["10.0.0.1"] ["NoSuch"] false true))
  /\ aborted_before_dispatch
       (main quiet_world (make_args (Some [CStr "1-2-3"]) ["10.0.0.1"] [] false true)).
Proof.
  split.
  - destruct (fatal_configuration_errors quiet_world
                (make_args (Some []) ["10.0.0.1"] ["NoSuch"] false true))
      as (_ & _ & _ & _ & H & _).
    apply (H "NoSuch"); try reflexivity. left. reflexivity.
  - destruct (fatal_configuration_errors quiet_world
                (make_args (Some [CStr "1-2-3"]) ["10.0.0.1"] [] false true))
      as (_ & _ & _ & H & _).
    apply (H [] "1-2-3" []); try reflexivity. constructor.
Defined.

(** * Further properties of the entry point *)

(** ** More on credential ids (lines 119-129) *)

Module CredIdsMore.
Import Py PyFacts CredIds.

(** *** [int] after [str] *)












(** *** [split] *)

Lemma split_length (c : ascii) (s : string) :
  List.length (split c s) = S (count_char c s).
Proof.
  induction s as [|a s IH]; [reflexivity|]. simpl.
  destruct (Ascii.eqb a c).
  - simpl. rewrite IH. reflexivity.
  - destruct (split c s) as [|p ps]; [discriminate IH|]. exact IH.
Qed.



End CredIdsMore.

Module Expansion.
Import Py PyFacts CredIds CredIdsMore Run Dispatch Main.

Lemma inertb_inert (x : cred) : inertb x = true <-> inert x.
Proof. unfold inertb, inert. rewrite negb_true_iff. reflexivity. Qed.

Lemma inertb_int (n : Z) : 0 <= n -> inertb (CInt n) = true.
Proof. intros H. apply inertb_inert, inert_int, H. Qed.

Lemma filter_inert_ints (zs : list Z) :
  Forall (fun n => 0 <= n) zs -> filter inertb (map CInt zs) = map CInt zs.
Proof.
  induction 1 as [|n zs Hn _ IH]; simpl; [reflexivity|].
  rewrite (inertb_int n Hn), IH. reflexivity.
Qed.

Lemma range_nonneg (a hi : Z) : 0 <= a -> Forall (fun n => 0 <= n) (range a hi).
Proof.
  intros Ha. apply Forall_forall. intros k Hk. apply range_In in Hk. lia.
Qed.

Lemma list_remove_In (y : cred) (L : list cred) :
  forall L2 x, list_remove y L = Some L2 -> In x L2 -> In x L.
Proof.
  induction L as [|h T IH]; intros L2 x H Hin; [discriminate|]. simpl in H.
  destruct (cred_eqb h y).
  - injection H as <-. right. exact Hin.
  - destruct (list_remove y T) as [T2|] eqn:E; [|discriminate].
    injection H as <-. destruct Hin as [<-|Hin]; [left; reflexivity|].
    right. exact (IH T2 x eq_refl Hin).
Qed.

Lemma list_remove_filter (y : cred) (L : list cred) :
  forall L2, inertb y = false -> list_remove y L = Some L2 ->
             filter inertb L2 = filter inertb L.
Proof.
  induction L as [|h T IH]; intros L2 Hy H; [discriminate|]. simpl in H.
  destruct (cred_eqb h y) eqn:Eh.
  - injection H as <-. apply cred_eqb_eq in Eh. subst h. simpl. rewrite Hy. reflexivity.
  - destruct (list_remove y T) as [T2|] eqn:E; [|discriminate].
    injection H as <-. simpl. rewrite (IH T2 Hy eq_refl). reflexivity.
Qed.

Lemma list_remove_Forall (P : cred -> Prop) (y : cred) (L : list cred) :
  forall L2, list_remove y L = Some L2 -> Forall P L -> Forall P L2.
Proof.
  intros L2 H HP. apply Forall_forall. intros x Hx.
  rewrite Forall_forall in HP. exact (HP x (list_remove_In y L L2 x H Hx)).
Qed.


Lemma extends_refl (l : list cred) : extends l l.
Proof. exists []. rewrite app_nil_r. repeat split; [constructor|auto]. Qed.

Lemma extends_trans (l1 l2 l3 : list cred) : extends l1 l2 -> extends l2 l3 -> extends l1 l3.
Proof.
  intros (i1 & F1 & N1 & S1) (i2 & F2 & N2 & S2). exists (i1 ++ i2).
  rewrite F2, F1, map_app, app_assoc. repeat split.
  - apply Forall_app. split; assumption.
  - intros s H. exact (S1 s (S2 s H)).
Qed.

Lemma expand_entry_extends (l l' : list cred) (x : cred) :
  expand_entry l x = Ret l' -> extends l l'.
Proof.
  unfold expand_entry.
  destruct (contains_char "-" (cred_str x)) eqn:Ex;
    [|intros [= <-]; apply extends_refl].
  destruct x as [s|n]; [|discriminate].
  destruct (split "-" s) as [|sa [|sb [|? ?]]] eqn:Es; try discriminate.
  destruct (int sa) as [a|] eqn:Ea; [|discriminate].
  destruct (int sb) as [b|] eqn:Eb; [|discriminate].
  destruct (list_remove _ _) as [l2|] eqn:Er; [|discriminate].
  intros [= <-].
  assert (Ha : 0 <= a).
  { apply (int_nonneg sa); [|exact Ea].
    apply (split_pieces "-" s). rewrite Es. left. reflexivity. }
  assert (Hx : inertb (CStr s) = false) by (unfold inertb; simpl in *; rewrite Ex; reflexivity).
  exists (range a (b + 1)). repeat split.
  - rewrite (list_remove_filter _ _ _ Hx Er), filter_app.
    rewrite (filter_inert_ints _ (range_nonneg a (b + 1) Ha)). reflexivity.
  - exact (range_nonneg a (b + 1) Ha).
  - intros t Ht. apply (list_remove_In _ _ _ _ Er) in Ht.
    apply in_app_or in Ht as [Ht|Ht]; [exact Ht|].
    apply in_map_iff in Ht as (k & Hk & _). discriminate Hk.
Qed.

Lemma expand_loop_extends (fuel : nat) :
  forall l i l', expand_loop fuel l i = Some (Ret l') -> extends l l'.
Proof.
  induction fuel as [|fuel IH]; intros l i l' H; [discriminate|].
  rewrite expand_loop_S in H. destruct (nth_error l i) as [x|].
  - destruct (expand_entry l x) as [l2| | |] eqn:E; try discriminate.
    exact (extends_trans _ _ _ (expand_entry_extends _ _ _ E) (IH _ _ _ H)).
  - injection H as <-. apply extends_refl.
Qed.

Lemma expand_entry_natural (l : list cred) (x : cred) :
  Forall natural l -> natural x ->
  match expand_entry l x with
  | Ret l' => Forall natural l'
  | Exit code => code = 1
  | Raise e => e = ValueError
  | Interrupt => False
  end.
Proof.
  intros Hl Hx. unfold expand_entry.
  destruct (contains_char "-" (cred_str x)) eqn:Ex; [|exact Hl].
  destruct x as [s|n].
  - destruct (split "-" s) as [|sa [|sb [|? ?]]] eqn:Es; try reflexivity.
    destruct (int sa) as [a|] eqn:Ea; [|reflexivity].
    destruct (int sb) as [b|] eqn:Eb; [|reflexivity].
    destruct (list_remove _ _) as [l2|] eqn:Er; [|reflexivity].
    apply (list_remove_Forall natural _ _ _ Er). apply Forall_app. split; [exact Hl|].
    assert (Ha : 0 <= a).
    { apply (int_nonneg sa); [|exact Ea].
      apply (split_pieces "-" s). rewrite Es. left. reflexivity. }
    apply Forall_forall. intros y Hy. apply in_map_iff in Hy as (k & <- & Hk).
    apply range_In in Hk. simpl. lia.
  - exfalso. simpl in Hx, Ex. rewrite contains_char_str_of_int in Ex.
    apply Z.ltb_lt in Ex. lia.
Qed.

Lemma expand_loop_natural (fuel : nat) :
  forall l i r,
    Forall natural l -> expand_loop fuel l i = Some r ->
    match r with
    | Ret l' => Forall natural l'
    | Exit code => code = 1
    | Raise e => e = ValueError
    | Interrupt => False
    end.
Proof.
  induction fuel as [|fuel IH]; intros l i r Hl H; [discriminate|].
  rewrite expand_loop_S in H. destruct (nth_error l i) as [x|] eqn:En.
  - assert (Hx : natural x).
    { rewrite Forall_forall in Hl. exact (Hl x (nth_error_In _ _ En)). }
    pose proof (expand_entry_natural l x Hl Hx) as Hs.
    destruct (expand_entry l x) as [l2|n|e|].
    + exact (IH _ _ _ Hs H).
    + injection H as <-. exact Hs.
    + injection H as <-. exact Hs.
    + destruct Hs.
  - injection H as <-. exact Hl.
Qed.

Lemma expand_entry_raises (l : list cred) (x : cred) (e : exn) :
  expand_entry l x = Raise e -> e = ValueError \/ e = AttributeError.
Proof.
  unfold expand_entry.
  destruct (contains_char "-" (cred_str x)); [|discriminate].
  destruct x as [s|n]; [|intros [= <-]; right; reflexivity].
  destruct (split "-" s) as [|sa [|sb [|? ?]]]; try (intros [= <-]; left; reflexivity).
  destruct (int sa); [destruct (int sb)|]; try discriminate.
  destruct (list_remove _ _); discriminate.
Qed.

Lemma expand_loop_raises (fuel : nat) :
  forall l i e, expand_loop fuel l i = Some (Raise e) -> e = ValueError \/ e = AttributeError.
Proof.
  induction fuel as [|fuel IH]; intros l i e H; [discriminate|].
  rewrite expand_loop_S in H. destruct (nth_error l i) as [x|]; [|discriminate].
  destruct (expand_entry l x) as [l2|n|e'|] eqn:E; try discriminate.
  - exact (IH _ _ _ H).
  - injection H as <-. exact (expand_entry_raises _ _ _ E).
Qed.


Lemma preconditions_events (w : World) (a : Args) :
  inv (all_events is_precondition_error)
      (fun _ => all_events is_precondition_error) (preconditions w a).
Proof. unfold preconditions. inv_steps_with fail trace_leaf. Qed.

(** How [setup] ends when the expansion of a non-empty list does not
    return: as the expansion ends, or earlier in the preconditions;
    the trace has the errors of the preconditions and at most the
    error of the expansion. *)
Lemma setup_expansion_stops (w : World) (a : Args) (x : cred) (l : list cred) :
  cred_id a = Some (x :: l) ->
  match expand_cred_ids (x :: l) with
  | Ret _ => True
  | Raise e =>
      all_events is_precondition_error (snd (setup_result w a))
      /\ (fst (setup_result w a) = Exit 1 \/ fst (setup_result w a) = Raise e)
  | _ => True
  end.
Proof.
  intros Hc. destruct (expand_cred_ids (x :: l)) as [l'|n|e|] eqn:E; try exact I.
  pose proof (preconditions_events w a (initial_state w a)
                (initial_all_events _ w a)) as Hp.
  destruct (preconditions_run w a (initial_state w a)) as [H|[s' H]]; rewrite H in Hp.
  - assert (R : setup_result w a = (Raise e, initial_state w a)).
    { unfold setup_result, setup. rewrite bind_run, H.
      rewrite bind_run. unfold expand_step at 1. rewrite bind_run. cbn [get].
      change (st_cred_id (initial_state w a)) with (cred_id a). rewrite Hc, E.
      reflexivity. }
    rewrite R. split; [exact Hp|right; reflexivity].
  - assert (R : setup_result w a = (Exit 1, s')).
    { unfold setup_result, setup. rewrite bind_run, H. reflexivity. }
    rewrite R. split; [exact Hp|left; reflexivity].
Qed.

End Expansion.

Import Py PyFacts CredIdsMore Expansion.

(** X1: the expansion loop ends although the list it iterates over
    grows: from some number of iterations on, the loop returns, and
    what it returns is the result of [expand_cred_ids]. *)
Theorem expansion_terminates (l : list cred) :
  exists fuel,
    forall fuel', (fuel <= fuel')%nat ->
                  expand_loop fuel' l 0 = Some (expand_cred_ids l).
Proof.
  destruct (expand_cred_ids_terminates l) as [fuel E]. exists fuel.
  intros fuel' Hle. exact (expand_loop_mono _ _ _ _ _ E Hle).
Qed.

(** X2: the expansion returns a list, or is the [exit(1)] of the
    [except] branch, or lets a [ValueError] (unpacking) or an
    [AttributeError] ([split] on an integer) escape; on a list of
    strings and non-negative integers, as a command line gives, it
    is never the [AttributeError], and the list it returns is again
    of that kind. *)
Theorem expansion_outcomes (l : list cred) :
  match expand_cred_ids l with
  | Ret _ => True
  | Exit code => code = 1
  | Raise e => e = ValueError \/ e = AttributeError
  | Interrupt => False
  end
  /\ (Forall natural l ->
      match expand_cred_ids l with
      | Ret l' => Forall natural l'
      | Exit code => code = 1
      | Raise e => e = ValueError
      | Interrupt => False
      end).
Proof.
  destruct (expand_cred_ids_terminates l) as [fuel E]. split.
  - destruct (expand_cred_ids l) as [l'|n|e|] eqn:R.
    + exact I.
    + exact (expand_cred_ids_exit_code l n R).
    + exact (expand_loop_raises _ _ _ _ E).
    + exact (expand_cred_ids_not_interrupt l R).
  - intros Hl. exact (expand_loop_natural _ _ _ _ Hl E).
Qed.

(** X3: when the expansion returns, the entries without a delimiter
    are all still there, in their order, followed only by integers
    that are not negative; and every string of the result was a
    string of the input. *)
Theorem expansion_keeps_plain_entries (l l' : list cred) :
  expand_cred_ids l = Ret l' ->
  exists ints,
    filter inertb l' = filter inertb l ++ map CInt ints
    /\ Forall (fun n => 0 <= n) ints
    /\ forall s, In (CStr s) l' -> In (CStr s) l.
Proof.
  intros H. destruct (expand_cred_ids_terminates l) as [fuel E]. rewrite H in E.
  exact (expand_loop_extends _ _ _ _ E).
Qed.

Lemma expansion_keeps_plain_entries_witness :
  exists ints,
    filter inertb [CStr "3-4"; CStr "7"; CInt 1; CInt 2]
    = filter inertb [CStr "1-2"; CStr "3-4"; CStr "7"] ++ map CInt ints
    /\ Forall (fun n => 0 <= n) ints
    /\ forall s, In (CStr s) [CStr "3-4"; CStr "7"; CInt 1; CInt 2]
                 -> In (CStr s) [CStr "1-2"; CStr "3-4"; CStr "7"].
Proof.
  apply (expansion_keeps_plain_entries [CStr "1-2"; CStr "3-4"; CStr "7"]).
  vm_compute. reflexivity.
Defined.

(** X4: a list in which no entry has a delimiter is returned as it
    is. *)
Theorem expansion_of_plain_list (l : list cred) :
  Forall inert l -> expand_cred_ids l = Ret l.
Proof.
  intros H. apply (CredIds.expand_cred_ids_spec l (S (List.length l))).
  exact (CredIds.expand_loop_inert_tail [] l (S (List.length l)) H (Nat.lt_succ_diag_r _)).
Qed.

Lemma expansion_of_plain_list_witness :
  expand_cred_ids [CStr "4"; CStr "9"] = Ret [CStr "4"; CStr "9"].
Proof.
  apply expansion_of_plain_list.
  constructor; [reflexivity|]. constructor; [reflexivity|constructor].
Defined.



(** X6: a first delimited entry with two or more delimiters, such as
    a range with a negative endpoint, fails at the unpacking of
    [split], outside the [try]: the run ends with a [ValueError]
    traceback, status 1, before any dispatch, and the error message
    of the [except] branch is not logged. *)
Theorem too_many_delimiters (w : World) (a : Args)
        (pre rest : list cred) (s : string) :
  cred_id a = Some (pre ++ CStr s :: rest) ->
  Forall inert pre ->
  (2 <= count_char "-" s)%nat ->
  expand_cred_ids (pre ++ CStr s :: rest) = Raise ValueError
  /\ aborted_before_dispatch (main w a)
  /\ ~ In (EvError LogCredId) (st_trace (snd (main w a))).
Proof.
  intros Hc Hpre Hn.
  assert (Hs : contains_char "-" s = true).
  { destruct (contains_char "-" s) eqn:E; [reflexivity|].
    pose proof (split_length "-" s) as Hl.
    rewrite (split_no_sep _ _ E) in Hl. simpl in Hl. lia. }
  assert (E : expand_cred_ids (pre ++ CStr s :: rest) = Raise ValueError).
  { apply (CredIds.expand_from_start _ _ 1%nat _ Hpre).
    rewrite CredIds.expand_loop_S, CredIds.nth_error_middle.
    unfold expand_entry. cbn [cred_str]. rewrite Hs.
    pose proof (split_length "-" s) as Hl.
    destruct (split "-" s) as [|sa [|sb [|? ?]]]; try reflexivity.
    simpl in Hl. lia. }
  split; [exact E|].
  destruct (pre ++ CStr s :: rest) as [|c l] eqn:El; [destruct pre; discriminate El|].
  split.
  - apply (Main.main_stops_in_expansion w a c l Hc). rewrite E. exact I.
  - pose proof (setup_expansion_stops w a c l Hc) as H. rewrite E in H.
    destruct H as [Hev Ho]. rewrite Main.main_run.
    intros Hin.
    assert (Htr : In (EvError LogCredId) (st_trace (snd (setup_result w a)))).
    { destruct (setup_result w a) as [[[]|n|e|] s0]; cbn [fst snd] in *;
        try exact Hin; destruct Ho as [Ho|Ho]; discriminate Ho. }
    unfold all_events in Hev. rewrite Forall_forall in Hev.
    specialize (Hev _ Htr). discriminate Hev.
Qed.

Lemma too_many_delimiters_witness :
  expand_cred_ids ([] ++ CStr "-3-5" :: []) = Raise ValueError
  /\ aborted_before_dispatch
       (main quiet_world (make_args (Some [CStr "-3-5"]) ["10.0.0.1"] [] false true)).
Proof.
  destruct (too_many_delimiters quiet_world
              (make_args (Some [CStr "-3-5"]) ["10.0.0.1"] [] false true)
              [] [] "-3-5" eq_refl (Forall_nil _)) as (H1 & H2 & _).
  - vm_compute. lia.
  - split; assumption.
Defined.

(** ** Targets *)

Module TargetsMore.
Import Targets.

Lemma source_targets_literal (w : World) (proto t : string) :
  is_file w t = false -> source_targets w proto t = parse_targets w t.
Proof. intros H. unfold source_targets. rewrite H. reflexivity. Qed.

Lemma source_targets_lines (w : World) (proto f : string) :
  is_file w f = true ->
  String.eqb (identify_target_file w f) "nmap" = false ->
  String.eqb (identify_target_file w f) "nessus" = false ->
  source_targets w proto f
  = flat_map (fun line => parse_targets w (Py.strip line)) (read_lines w f).
Proof. intros H1 H2 H3. unfold source_targets. rewrite H1, H2, H3. reflexivity. Qed.

Lemma flat_map_literals (w : World) (proto : string) (lines : list string) :
  Forall (fun line => is_file w (Py.strip line) = false) lines ->
  flat_map (source_targets w proto) (map Py.strip lines)
  = flat_map (fun line => parse_targets w (Py.strip line)) lines.
Proof.
  induction 1 as [|line lines H _ IH]; simpl; [reflexivity|].
  rewrite IH, (source_targets_literal _ _ _ H). reflexivity.
Qed.

End TargetsMore.

(** ** Lines 101-175 *)

Module Prefix.
Import Run Dispatch CredIds Main Setup Expansion.

Lemma bind_assoc {A B C : Type} (c : M A) (k : A -> M B) (h : B -> M C) (s : state) :
  bind (bind c k) h s = bind c (fun x => bind (k x) h) s.
Proof. unfold bind. destruct (c s) as [[x|n|e|] s']; reflexivity. Qed.

Lemma bind_ext {A B : Type} (c : M A) (k k' : A -> M B) (s : state) :
  (forall x s', k x s' = k' x s') -> bind c k s = bind c k' s.
Proof. intros H. unfold bind. destruct (c s) as [[x|n|e|] s']; [apply H|reflexivity ..]. Qed.

Lemma setup_split (w : World) (a : Args) (s : state) :
  setup w a s = (setup_prefix w a ;; modules_step w a ;; ntds_gate a) s.
Proof.
  unfold setup, setup_prefix.
  rewrite bind_assoc. apply bind_ext. intros _ s1.
  rewrite bind_assoc. apply bind_ext. intros _ s2.
  rewrite bind_assoc. apply bind_ext. intros _ s3.
  rewrite bind_assoc. reflexivity.
Qed.

Lemma preconditions_closed (w : World) (a : Args) (s : state) :
  preconditions w a s
  = match precondition_error w a with
    | Some evs => (Exit 1, add_events evs s)
    | None => (Ret tt, s)
    end.
Proof.
  unfold preconditions, precondition_error, check_protocol, check_ssh, check_kcache.
  rewrite bind_run.
  destruct (truthy (protocol a)); cbn [negb];
    [|cbn [exit]; rewrite add_events_nil; reflexivity].
  cbn [ret]. rewrite bind_run.
  destruct (String.eqb (protocol_name a) "ssh"); cbn [andb].
  - destruct (truthy (key_file a)); cbn [andb].
    + destruct (password a); [rewrite bind_run, emit_run; reflexivity|].
      cbn [ret].
      destruct (use_kcache a && negb (truthy (environ_KRB5CCNAME w)));
        [rewrite bind_run, emit_run; reflexivity | reflexivity].
    + cbn [ret].
      destruct (use_kcache a && negb (truthy (environ_KRB5CCNAME w)));
        [rewrite bind_run, emit_run; reflexivity | reflexivity].
  - cbn [ret].
    destruct (use_kcache a && negb (truthy (environ_KRB5CCNAME w)));
      [rewrite bind_run, emit_run; reflexivity | reflexivity].
Qed.

Lemma expand_step_closed (s : state) :
  expand_step s
  = match expansion (st_cred_id s) with
    | Ret ids => (Ret tt, set_cred_id ids s)
    | Exit code => (Exit code, add_events [EvError LogCredId] s)
    | Raise e => (Raise e, s)
    | Interrupt => (Interrupt, s)
    end.
Proof.
  unfold expand_step, expansion. rewrite bind_run. cbn [get].
  destruct (st_cred_id s) as [[|x l]|] eqn:Ec.
  - cbn [ret]. destruct s. simpl in *. subst. reflexivity.
  - destruct (expand_cred_ids (x :: l)); reflexivity.
  - cbn [ret]. destruct s. simpl in *. subst. reflexivity.
Qed.

(** Lines 101-175 in closed form. *)
Lemma setup_prefix_run (w : World) (a : Args) :
  setup_prefix w a (initial_state w a) = prefix_result w a.
Proof.
  unfold setup_prefix, prefix_result.
  rewrite bind_run, preconditions_closed.
  destruct (precondition_error w a) as [evs|]; [reflexivity|].
  rewrite bind_run, expand_step_closed.
  change (st_cred_id (initial_state w a)) with (cred_id a).
  destruct (expansion (cred_id a)) as [ids|n|e|]; try reflexivity.
  unfold targets_step, obfuscation_step, load_protocol, loaded_state.
  rewrite bind_run. cbn [modify]. rewrite bind_run, bind_run.
  destruct (clear_obfscripts a), (obfs a),
    (existsb (String.eqb (protocol_name a)) (protocols w)); reflexivity.
Qed.

(** [setup] is lines 101-175 and then the modules and the last
    prompt. *)
Lemma setup_result_run (w : World) (a : Args) :
  setup_result w a
  = match prefix_result w a with
    | (Ret _, s) => (modules_step w a ;; ntds_gate a) s
    | (Exit code, s) => (Exit code, s)
    | (Raise e, s) => (Raise e, s)
    | (Interrupt, s) => (Interrupt, s)
    end.
Proof.
  unfold setup_result. rewrite setup_split, bind_run, setup_prefix_run.
  reflexivity.
Qed.

Lemma expansion_exit (ids : option (list cred)) (n : Z) :
  expansion ids = Exit n -> n = 1.
Proof.
  unfold expansion. destruct ids as [[|x l]|]; try discriminate.
  destruct (expand_cred_ids (x :: l)) eqn:E; try discriminate.
  intros [= <-]. exact (expand_cred_ids_exit_code _ _ E).
Qed.


Lemma expansion_not_interrupt (ids : option (list cred)) : expansion ids <> Interrupt.
Proof.
  unfold expansion. destruct ids as [[|x l]|]; try discriminate.
  destruct (expand_cred_ids (x :: l)) eqn:E; try discriminate.
  intros _. exact (expand_cred_ids_not_interrupt _ E).
Qed.

Lemma precondition_error_early (w : World) (a : Args) (evs : list event) :
  precondition_error w a = Some evs -> Forall (fun e => is_early e = true) evs.
Proof.
  unfold precondition_error.
  destruct (negb (truthy (protocol a))); [intros [= <-]; constructor|].
  destruct (_ && _ && _); [intros [= <-]; repeat constructor|].
  destruct (_ && _); [intros [= <-]; repeat constructor|discriminate].
Qed.

(** When lines 101-175 do not get through, the run ends there with
    status 1, and what was logged or done is among the early
    events. *)
Lemma prefix_stops (w : World) (a : Args) :
  fst (prefix_result w a) <> Ret tt ->
  setup_result w a = prefix_result w a
  /\ aborts (fst (prefix_result w a))
  /\ all_events is_early (snd (prefix_result w a))
  /\ st_proto_module (snd (prefix_result w a)) = [].
Proof.
  intros Hne. rewrite setup_result_run. revert Hne. unfold prefix_result.
  destruct (precondition_error w a) as [evs|] eqn:Ep.
  - intros _. cbn [fst snd]. repeat split.
    unfold all_events. simpl. exact (precondition_error_early _ _ _ Ep).
  - destruct (expansion (cred_id a)) as [ids|n|e|] eqn:Ee.
    + unfold loaded_state.
      destruct (existsb (String.eqb (protocol_name a)) (protocols w));
        [intros H; contradiction H; reflexivity|].
      intros _. cbn [fst snd]. repeat split.
      unfold all_events. simpl. rewrite app_nil_r.
      destruct (clear_obfscripts a); repeat constructor.
    + intros _. cbn [fst snd]. repeat split.
      * exact (expansion_exit _ _ Ee).
      * unfold all_events. simpl. repeat constructor.
    + intros _. cbn [fst snd]. repeat split. constructor.
    + destruct (expansion_not_interrupt _ Ee).
Qed.

End Prefix.

Import TargetsMore Prefix.

(** X7: a text file of targets counts as its lines, stripped, given
    as literals in its place, when no stripped line is itself the
    name of a file: the built list is the same. *)
Theorem target_file_is_its_lines (w : World) (proto f : string) (pre post : list string) :
  is_file w f = true ->
  String.eqb (identify_target_file w f) "nmap" = false ->
  String.eqb (identify_target_file w f) "nessus" = false ->
  Forall (fun line => is_file w (Py.strip line) = false) (read_lines w f) ->
  build_targets w proto (Some (pre ++ f :: post))
  = build_targets w proto (Some (pre ++ map Py.strip (read_lines w f) ++ post)).
Proof.
  intros Hf Hn Hs Hl. rewrite !Targets.build_targets_concat.
  rewrite !flat_map_app. cbn [flat_map].
  rewrite (source_targets_lines w proto f Hf Hn Hs), (flat_map_literals w proto _ Hl).
  reflexivity.
Qed.

Lemma target_file_is_its_lines_witness :
  build_targets hosts_file_world "smb" (Some (["10.0.0.9"] ++ "hosts.txt" :: []))
  = build_targets hosts_file_world "smb"
      (Some (["10.0.0.9"] ++ map Py.strip (read_lines hosts_file_world "hosts.txt") ++ [])).
Proof.
  apply (target_file_is_its_lines hosts_file_world "smb" "hosts.txt" ["10.0.0.9"] []);
    try reflexivity.
  repeat constructor.
Defined.



(** ** The listing modes *)

Module Listing.
Import Run Dispatch Main Prefix.



Section Sorting.
Context {V : Type}.





End Sorting.


Lemma list_modules_mode_run (w : World) (a : Args) (s : state) :
  list_modules_mode w a s = (Exit 0, add_events (listing w a) s).
Proof.
  unfold list_modules_mode, listing. rewrite bind_run.
  assert (H : forall items s0,
             for_each items
               (fun item =>
                  if existsb (String.eqb (protocol_name a))
                       (mi_supported_protocols (snd item))
                  then emit (EvDisplayModule (fst item) (mi_description (snd item)))
                  else ret tt) s0
             = (Ret tt,
                add_events
                  (map display_module (filter (supported_by (protocol_name a)) items))
                  s0)).
  { induction items as [|item items IH]; intros s0.
    - simpl. rewrite add_events_nil. reflexivity.
    - cbn [for_each filter]. rewrite bind_run. unfold supported_by at 1.
      destruct (existsb _ _).
      + rewrite emit_run, IH, add_events_app. reflexivity.
      + cbn [ret]. apply IH. }
  rewrite H. reflexivity.
Qed.

Lemma known_prefix_all (mods : list (string * module_info)) (names : list string) :
  Forall (fun name => lookup name mods <> None) names ->
  snd (known_prefix mods names) = true
  /\ map fst (fst (known_prefix mods names)) = names.
Proof.
  induction 1 as [|name names Hn _ IH]; simpl; [split; reflexivity|].
  destruct (lookup name mods) as [info|]; [|contradiction Hn; reflexivity].
  destruct (known_prefix mods names) as [items all]. simpl in *.
  destruct IH as [-> ->]. split; reflexivity.
Qed.

Lemma known_prefix_stops (mods : list (string * module_info))
      (pre post : list string) (name : string) :
  Forall (fun name => lookup name mods <> None) pre ->
  lookup name mods = None ->
  snd (known_prefix mods (pre ++ name :: post)) = false
  /\ map fst (fst (known_prefix mods (pre ++ name :: post))) = pre.
Proof.
  intros Hpre Hn. induction Hpre as [|x pre Hx _ IH]; simpl.
  - rewrite Hn. split; reflexivity.
  - destruct (lookup x mods) as [info|]; [|contradiction Hx; reflexivity].
    destruct (known_prefix mods (pre ++ name :: post)) as [items all]. simpl in *.
    destruct IH as [-> ->]. split; reflexivity.
Qed.

Lemma known_prefix_entries (mods : list (string * module_info)) (names : list string) :
  Forall (fun item => lookup (fst item) mods = Some (snd item))
         (fst (known_prefix mods names)).
Proof.
  induction names as [|name names IH]; simpl; [constructor|].
  destruct (lookup name mods) as [info|] eqn:E; [|constructor].
  destruct (known_prefix mods names) as [items all]. simpl in *.
  constructor; [exact E|exact IH].
Qed.

Lemma show_options_mode_run (w : World) (a : Args) (s : state) :
  show_options_mode w a s
  = (if snd (known_prefix (modules w) (module a)) then Exit 0 else Raise KeyError,
     add_events (map display_options (fst (known_prefix (modules w) (module a)))) s).
Proof.
  unfold show_options_mode. rewrite bind_run.
  generalize (module a) as names. intros names. revert s.
  induction names as [|name names IH]; intros s.
  - simpl. rewrite add_events_nil. reflexivity.
  - cbn [for_each known_prefix]. rewrite bind_run.
    destruct (lookup name (modules w)) as [info|].
    + rewrite emit_run. specialize (IH (add_events [EvDisplayOptions name (mi_options info)] s)).
      destruct (known_prefix (modules w) names) as [items all].
      cbn [fst snd map] in *.
      destruct (for_each names _ _) as [[[]|n|e|] s'] eqn:E.
      * rewrite IH. rewrite add_events_app. reflexivity.
      * rewrite IH. rewrite add_events_app. reflexivity.
      * rewrite IH. rewrite add_events_app. reflexivity.
      * rewrite IH. rewrite add_events_app. reflexivity.
    + cbn [raise fst snd map]. rewrite add_events_nil. reflexivity.
Qed.

(** Where the run stands at line 177. *)
Lemma prefix_state (w : World) (a : Args) :
  st_stdin (snd (prefix_result w a)) = stdin w
  /\ st_proto_module (snd (prefix_result w a)) = []
  /\ st_module_server (snd (prefix_result w a)) = None
  /\ st_targets (snd (prefix_result w a))
     = match fst (prefix_result w a) with
       | Ret _ => build_targets w (protocol_name a) (target a)
       | _ => st_targets (snd (prefix_result w a))
       end.
Proof.
  unfold prefix_result.
  destruct (precondition_error w a); [repeat split|].
  destruct (expansion (cred_id a)); repeat split.
  destruct (existsb _ _); reflexivity.
Qed.

End Listing.

Import Listing.



(** X10: with [--options] (and without [--list-modules]) the
    requested names are looked up as they were typed, not
    lower-cased: a run that gets through lines 101-175 displays the
    options of the names up to the first one that is not a key of
    the dictionary, in the order requested; it is then [exit(0)] if
    all were keys, and otherwise ends with the [KeyError] of the
    lookup, status 1, nothing logged.  Nothing is asked, attached or
    dispatched. *)
Theorem show_options_mode_shows (w : World) (a : Args) :
  list_modules a = false -> show_module_options a = true -> module a <> [] ->
  fst (setup_prefix w a (initial_state w a)) = Ret tt ->
  let shown := fst (known_prefix (modules w) (module a)) in
  main w a
  = (if snd (known_prefix (modules w) (module a)) then Exit 0 else Raise KeyError,
     add_events (map display_options shown) (snd (setup_prefix w a (initial_state w a))))
  /\ Forall (fun item => lookup (fst item) (modules w) = Some (snd item)) shown
  /\ (Forall (fun name => lookup name (modules w) <> None) (module a) ->
      fst (main w a) = Exit 0 /\ map fst shown = module a)
  /\ (forall pre name post,
         module a = pre ++ name :: post ->
         Forall (fun name => lookup name (modules w) <> None) pre ->
         lookup name (modules w) = None ->
         fst (main w a) = Raise KeyError /\ map fst shown = pre)
  /\ st_stdin (snd (main w a)) = stdin w
  /\ st_proto_module (snd (main w a)) = []
  /\ dispatched (st_trace (snd (main w a))) = [].
Proof.
  intros Hl Hs Hm Hp. cbv zeta. rewrite setup_prefix_run in *.
  assert (Hmain : main w a
                  = (if snd (known_prefix (modules w) (module a))
                     then Exit 0 else Raise KeyError,
                     add_events
                       (map display_options (fst (known_prefix (modules w) (module a))))
                       (snd (prefix_result w a)))).
  { rewrite Main.main_run, setup_result_run.
    destruct (prefix_result w a) as [[[]|n|e|] s]; cbn [fst snd] in *; try discriminate.
    rewrite bind_run. unfold modules_step. rewrite Hl.
    destruct (module a) as [|m ms] eqn:Em; [contradiction Hm; reflexivity|].
    rewrite Hs, show_options_mode_run, Em.
    destruct (snd (known_prefix (modules w) (m :: ms))); reflexivity. }
  destruct (prefix_state w a) as (H1 & H2 & _).
  split; [exact Hmain|]. split; [apply known_prefix_entries|].
  split; [|split; [|split; [|split]]].
  - intros Hall. destruct (known_prefix_all _ _ Hall) as [Ha Hb].
    rewrite Hmain, Ha. split; [reflexivity|exact Hb].
  - intros pre name post Em Hpre Hn.
    destruct (known_prefix_stops _ pre post name Hpre Hn) as [Ha Hb].
    rewrite Hmain, Em, Ha. split; [reflexivity|exact Hb].
  - rewrite Hmain. exact H1.
  - rewrite Hmain. exact H2.
  - assert (Hne : fst (setup_result w a) <> Ret tt).
    { rewrite setup_result_run.
      destruct (prefix_result w a) as [[[]|n|e|] s]; cbn [fst snd] in *; try discriminate.
      rewrite bind_run. unfold modules_step. rewrite Hl.
      destruct (module a) as [|m ms] eqn:Em; [contradiction Hm; reflexivity|].
      rewrite Hs, show_options_mode_run, Em.
      destruct (snd (known_prefix (modules w) (m :: ms))); discriminate. }
    pose proof (Main.setup_no_dispatch w a) as Hd. rewrite Main.main_run.
    destruct (setup_result w a) as [[[]|n|e|] s]; cbn [fst snd] in *;
      [contradiction Hne; reflexivity|exact Hd ..].
Qed.

Lemma show_options_mode_shows_witness :
  fst (main callback_world
         (with_show_options (make_args (Some []) ["10.0.0.1"] ["b"; "A"; "a"] false true)))
  = Raise KeyError
  /\ map fst (fst (known_prefix (modules callback_world) ["b"; "A"; "a"])) = ["b"].
Proof.
  destruct (show_options_mode_shows callback_world
              (with_show_options (make_args (Some []) ["10.0.0.1"] ["b"; "A"; "a"] false true))
              eq_refl eq_refl) as (_ & _ & _ & H & _).
  - discriminate.
  - reflexivity.
  - apply (H ["b"] "A" ["a"]).
    + reflexivity.
    + constructor; [discriminate|constructor].
    + reflexivity.
Defined.

(** ** Lines 177-263 *)

Module Suffix.
Import Run Dispatch Main Setup Prefix Listing.

Ltac frame_leaf :=
  first [ intros; exact I | let H := fresh in intros ? H; exact H ].

Lemma suffix_same_inputs (w : World) (a : Args) (s0 : state) :
  inv (same_inputs s0) (fun _ _ => True) (modules_step w a ;; ntds_gate a).
Proof. inv_steps_with fail frame_leaf. Qed.

Section Modules.
Context (w : World) (a : Args) (L : list module_obj).

Lemma opsec_gate_keeps (m : module_obj) : inv (modules_are L) (fun _ _ => True) (opsec_gate w m).
Proof. inv_steps_with fail frame_leaf. Qed.

Lemma multiple_hosts_gate_keeps (m : module_obj) :
  inv (modules_are L) (fun _ _ => True) (multiple_hosts_gate m).
Proof. inv_steps_with fail frame_leaf. Qed.

Lemma module_server_step_keeps (m : module_obj) :
  inv (modules_are L) (fun _ _ => True) (module_server_step w a m).
Proof. inv_steps_with fail frame_leaf. Qed.

Lemma ntds_gate_keeps : inv (modules_are L) (fun _ _ => True) (ntds_gate a).
Proof. inv_steps_with fail frame_leaf. Qed.

End Modules.

Lemma load_module_attaches (w : World) (a : Args) (name : string) (s s' : state) :
  load_module w a name s = (Ret tt, s') ->
  exists info,
    lookup name (modules w) = Some info
    /\ st_proto_module s' = st_proto_module s ++ [init_module w (mi_path info)].
Proof.
  unfold load_module. destruct (lookup name (modules w)) as [info|];
    [|rewrite bind_run, emit_run; discriminate].
  intros H. exists info. split; [reflexivity|]. revert H.
  set (m := init_module w (mi_path info)).
  rewrite bind_run.
  pose proof (opsec_gate_keeps w (st_proto_module s) m s eq_refl) as H1.
  destruct (opsec_gate w m s) as [[[]|n|e|] s1]; try discriminate.
  rewrite bind_run.
  pose proof (multiple_hosts_gate_keeps (st_proto_module s) m s1 H1) as H2.
  destruct (multiple_hosts_gate m s1) as [[[]|n|e|] s2]; try discriminate.
  rewrite bind_run.
  pose proof (module_server_step_keeps w a (st_proto_module s) m s2 H2) as H3.
  destruct (module_server_step w a m s2) as [[[]|n|e|] s3]; try discriminate.
  unfold attach. cbn [modify]. intros [= <-]. cbn [st_proto_module set_proto_module].
  rewrite H3. reflexivity.
Qed.

Lemma load_modules_attach (w : World) (a : Args) (names : list string) :
  forall s s',
    for_each names (load_module w a) s = (Ret tt, s') ->
    exists infos,
      map (fun name => lookup name (modules w)) names = map Some infos
      /\ st_proto_module s'
         = st_proto_module s ++ map (fun info => init_module w (mi_path info)) infos.
Proof.
  induction names as [|name names IH]; intros s s' H.
  - injection H as <-. exists []. rewrite app_nil_r. split; reflexivity.
  - cbn [for_each] in H. rewrite bind_run in H.
    destruct (load_module w a name s) as [[[]|n|e|] s1] eqn:E; try discriminate.
    destruct (load_module_attaches w a name s s1 E) as (info & Hi & Hm).
    destruct (IH s1 s' H) as (infos & His & Hms).
    exists (info :: infos). cbn [map]. rewrite Hi, His, Hms, Hm, <- app_assoc.
    split; reflexivity.
Qed.

(** When lines 177-263 return, every requested module was found
    under its lower-cased name and attached, in the order
    requested. *)
Lemma suffix_returns (w : World) (a : Args) (s s' : state) :
  (modules_step w a ;; ntds_gate a) s = (Ret tt, s') ->
  list_modules a = false
  /\ (module a = [] \/ show_module_options a = false)
  /\ same_inputs s s'
  /\ exists infos,
       requested w (module a) infos
       /\ st_proto_module s'
          = st_proto_module s ++ map (fun info => init_module w (mi_path info)) infos.
Proof.
  intros H.
  pose proof (suffix_same_inputs w a s s (conj eq_refl (conj eq_refl eq_refl))) as Hf.
  rewrite H in Hf. revert H. rewrite bind_run. unfold modules_step.
  destruct (list_modules a); [rewrite list_modules_mode_run; discriminate|].
  split; [reflexivity|].
  destruct (module a) as [|m ms] eqn:Em.
  - cbn [ret] in H.
    pose proof (ntds_gate_keeps a (st_proto_module s) s eq_refl) as Hk.
    rewrite H in Hk. split; [left; reflexivity|]. split; [exact Hf|].
    exists []. rewrite app_nil_r. split; [reflexivity|exact Hk].
  - destruct (show_module_options a);
      [rewrite show_options_mode_run in H;
       destruct (snd (known_prefix _ _)); discriminate|].
    split; [right; reflexivity|]. split; [exact Hf|].
    destruct (for_each _ _ s) as [[[]|n|e|] s1] eqn:E; try discriminate.
    destruct (load_modules_attach w a _ s s1 E) as (infos & Hi & Hm).
    pose proof (ntds_gate_keeps a (st_proto_module s1) s1 eq_refl) as Hk.
    rewrite H in Hk. exists infos. split.
    + unfold requested. rewrite <- Hi, map_map. reflexivity.
    + rewrite Hk. exact Hm.
Qed.

(** A run whose [setup] returns went through lines 101-175 to
    [loaded_state] and through lines 177-263 from there. *)
Lemma setup_returns (w : World) (a : Args) :
  fst (setup_result w a) = Ret tt ->
  exists ids,
    precondition_error w a = None
    /\ expansion (cred_id a) = Ret ids
    /\ existsb (String.eqb (protocol_name a)) (protocols w) = true
    /\ setup_result w a
       = (Ret tt, snd (setup_result w a))
    /\ (modules_step w a ;; ntds_gate a) (loaded_state w a ids)
       = (Ret tt, snd (setup_result w a)).
Proof.
  rewrite setup_result_run. unfold prefix_result.
  destruct (precondition_error w a); [discriminate|].
  destruct (expansion (cred_id a)) as [ids|n|e|]; try discriminate.
  destruct (existsb _ _); [|discriminate].
  intros H. exists ids.
  destruct ((modules_step w a ;; ntds_gate a) (loaded_state w a ids)) as [[[]|n|e|] s'];
    try discriminate.
  repeat split.
Qed.

End Suffix.

Import Suffix.

(** X11: when the run reaches dispatch, every name of [--module]
    was a key of the dictionary once lower-cased, and the protocol
    class carries exactly the objects [init_module] made for them, in
    the order requested, one for each occurrence of a name; the
    credential ids are the expanded ones, and obfuscation is on
    exactly if [--obfs] was given.  Dispatch changes none of this. *)
Theorem dispatch_environment (w : World) (a : Args) :
  fst (setup_result w a) = Ret tt ->
  exists infos ids,
    requested w (module a) infos
    /\ st_proto_module (snd (main w a))
       = map (fun info => init_module w (mi_path info)) infos
    /\ expansion (cred_id a) = Ret ids
    /\ st_cred_id (snd (main w a)) = ids
    /\ st_obfuscate (snd (main w a)) = obfs a
    /\ list_modules a = false
    /\ (module a = [] \/ show_module_options a = false).
Proof.
  intros Hret.
  destruct (setup_returns w a Hret) as (ids & _ & He & _ & Hs & Hsuf).
  destruct (suffix_returns w a _ _ Hsuf) as (Hl & Hm & (F1 & F2 & F3) & infos & Hr & Hp).
  exists infos, ids.
  assert (Hmain : snd (main w a)
                  = add_events
                      (run_events w a (st_targets (snd (setup_result w a)))
                       ++ teardown_events (snd (setup_result w a)))
                      (snd (setup_result w a))).
  { rewrite Main.main_run, Hs. cbn [snd]. rewrite Main.dispatch_run. reflexivity. }
  rewrite Hmain. cbn [add_events set_trace st_proto_module st_cred_id st_obfuscate].
  repeat split; try assumption.
Qed.

Lemma dispatch_environment_witness :
  exists infos ids,
    requested callback_world ["B"; "a"; "b"] infos
    /\ st_proto_module
         (snd (main callback_world
                 (make_args (Some [CStr "1-2"]) ["10.0.0.1"] ["B"; "a"; "b"] false true)))
       = map (fun info => init_module callback_world (mi_path info)) infos
    /\ expansion (Some [CStr "1-2"]) = Ret ids.
Proof.
  destruct (dispatch_environment callback_world
              (make_args (Some [CStr "1-2"]) ["10.0.0.1"] ["B"; "a"; "b"] false true))
    as (infos & ids & H1 & H2 & H3 & _).
  - vm_compute. reflexivity.
  - exists infos, ids. repeat split; assumption.
Defined.

(** ** Prompts and exceptions *)

Module Prompts.
Import Run Dispatch CredIds Main Setup Server Gate Expansion Prefix Listing Suffix.

Lemma answers_app (tr1 tr2 : list event) : answers (tr1 ++ tr2) = answers tr1 ++ answers tr2.
Proof. apply flat_map_app. Qed.

Lemma stdin_read_add (w : World) (e : event) (s : state) :
  answers [e] = [] -> stdin_read w s -> stdin_read w (add_events [e] s).
Proof.
  unfold stdin_read. cbn [add_events set_trace st_trace st_stdin].
  intros He H. rewrite answers_app, He, app_nil_r. exact H.
Qed.

Lemma confirm_reads (w : World) (k : prompt_kind) :
  inv (stdin_read w) (fun _ => stdin_read w) (confirm k).
Proof.
  intros s H. destruct (st_stdin s) as [|ans rest] eqn:Es.
  - rewrite (confirm_eof k s Es). apply stdin_read_add; [reflexivity|exact H].
  - rewrite (confirm_run k s ans rest Es).
    assert (H' : stdin_read w (add_events [EvPrompt k (Some ans)] (set_stdin rest s))).
    { unfold stdin_read in *. cbn [add_events set_trace st_trace st_stdin set_stdin].
      rewrite Es in H. rewrite answers_app, <- app_assoc. exact H. }
    destruct (affirmative ans); exact H'.
Qed.

Ltac reads_atom :=
  idtac;
  lazymatch goal with
  | |- inv _ _ (confirm _) => apply confirm_reads
  end.

Ltac reads_leaf :=
  first
    [ let H := fresh in intros ? H; exact H
    | let H := fresh in intros ? H; apply stdin_read_add; [reflexivity|exact H] ].

Lemma setup_reads (w : World) (a : Args) :
  inv (stdin_read w) (fun _ => stdin_read w) (setup w a).
Proof. unfold setup. inv_steps_with reads_atom reads_leaf. Qed.

Lemma run_events_quiet (w : World) (a : Args) (targets : list string) (e : event) :
  In e (run_events w a targets) -> is_setup e = false.
Proof.
  intros H. apply run_events_kind in H. destruct e; try reflexivity; discriminate H.
Qed.

Lemma teardown_events_quiet (s : state) (e : event) :
  In e (teardown_events s) -> is_setup e = false.
Proof.
  unfold teardown_events.
  destruct (st_module_server s); simpl; intros H;
    repeat (destruct H as [<-|H]; [reflexivity|]); destruct H.
Qed.

(** What dispatch and teardown write is nothing [setup] writes. *)
Lemma dispatch_events_quiet (w : World) (a : Args) (s : state) (e : event) :
  In e (run_events w a (st_targets s) ++ teardown_events s) -> is_setup e = false.
Proof.
  intros H. apply in_app_or in H as [H|H];
    [exact (run_events_quiet _ _ _ _ H)|exact (teardown_events_quiet _ _ H)].
Qed.

Lemma flat_map_quiet {B : Type} (f : event -> list B) (evs : list event) :
  (forall e, is_setup e = false -> f e = []) ->
  (forall e, In e evs -> is_setup e = false) ->
  flat_map f evs = [].
Proof. intros Hf H. apply flat_map_nil. intros e He. exact (Hf e (H e He)). Qed.

Lemma answers_quiet (evs : list event) :
  (forall e, In e evs -> is_setup e = false) -> answers evs = [].
Proof.
  apply flat_map_quiet. intros [] He; try reflexivity; discriminate He.
Qed.

Lemma filter_quiet (p : event -> bool) (evs : list event) :
  (forall e, is_setup e = false -> p e = false) ->
  (forall e, In e evs -> is_setup e = false) ->
  filter p evs = [].
Proof.
  intros Hp H. induction evs as [|e evs IH]; simpl; [reflexivity|].
  rewrite (Hp e (H e (or_introl eq_refl))). apply IH.
  intros e' He'. apply H. right. exact He'.
Qed.

(** The run is [setup] and, where [setup] returns, dispatch. *)
Lemma main_cases (w : World) (a : Args) :
  (fst (setup_result w a) = Ret tt
   /\ main w a
      = (dispatch_outcome w a,
         add_events (run_events w a (st_targets (snd (setup_result w a)))
                     ++ teardown_events (snd (setup_result w a)))
           (snd (setup_result w a))))
  \/ (fst (setup_result w a) <> Ret tt /\ main w a = setup_result w a).
Proof.
  rewrite main_run. destruct (setup_result w a) as [[[]|n|e|] s]; cbn [fst snd].
  - left. split; [reflexivity|apply dispatch_run].
  - right. split; [discriminate|reflexivity].
  - right. split; [discriminate|reflexivity].
  - right. split; [discriminate|reflexivity].
Qed.

(** *** Exceptions *)

Section RaisingRules.
Context (I : state -> Prop) (E : Z -> state -> Prop) (R : exn -> state -> Prop).










End RaisingRules.








End Prompts.

Import Prompts.

(** X12: every prompt is answered by the next unread line of
    standard input: the lines the prompts of a run got, in the order
    of the prompts, followed by what the run left unread, are the
    input. *)
Theorem prompts_consume_stdin (w : World) (a : Args) :
  answers (st_trace (snd (main w a))) ++ st_stdin (snd (main w a)) = stdin w.
Proof.
  pose proof (setup_reads w a (initial_state w a) eq_refl) as H.
  fold (setup_result w a) in H.
  assert (Hs : stdin_read w (snd (setup_result w a))).
  { destruct (setup_result w a) as [[[]|n|e|] s]; [exact H ..|destruct H]. }
  destruct (main_cases w a) as [[_ ->]|[_ ->]]; [|exact Hs].
  cbn [snd add_events set_trace st_trace st_stdin].
  rewrite answers_app.
  rewrite (answers_quiet _ (dispatch_events_quiet w a (snd (setup_result w a)))).
  rewrite app_nil_r. exact Hs.
Qed.


(** ** Where prompts come from *)

Module Provenance.
Import Run Dispatch CredIds Main Setup Server Gate Expansion Prefix Listing Suffix Prompts.

Section Expected.
Context (w : World) (a : Args).

Lemma prompts_expected_add (e : event) (s : state) :
  prompt_expected w a e = true ->
  prompts_expected w a s -> prompts_expected w a (add_events [e] s).
Proof.
  intros He [H1 H2]. split; [apply all_events_add; assumption|exact H2].
Qed.

Lemma confirm_expected (k : prompt_kind) :
  (forall ans, prompt_expected w a (EvPrompt k ans) = true) ->
  inv (prompts_expected w a) (fun _ => prompts_expected w a) (confirm k).
Proof.
  intros Hk s H. destruct (st_stdin s) as [|ans rest] eqn:Es.
  - rewrite (confirm_eof k s Es). apply prompts_expected_add; [apply Hk|exact H].
  - rewrite (confirm_run k s ans rest Es).
    assert (H' : prompts_expected w a
                   (add_events [EvPrompt k (Some ans)] (set_stdin rest s)))
      by (apply (prompts_expected_add _ (set_stdin rest s)); [apply Hk|exact H]).
    destruct (affirmative ans); exact H'.
Qed.

Ltac expected_leaf :=
  first
    [ let H := fresh in intros ? H; exact H
    | let H := fresh in
      intros ? H; apply prompts_expected_add; [reflexivity|exact H] ].

Lemma requested_with_intro (p : module_obj -> bool) (name : string) (info : module_info) :
  In name (map Py.lower (module a)) ->
  lookup name (modules w) = Some info ->
  p (init_module w (mi_path info)) = true ->
  requested_with w a p = true.
Proof.
  intros Hin Hl Hp. apply in_map_iff in Hin as (orig & <- & Hin).
  unfold requested_with. apply existsb_exists. exists orig.
  split; [exact Hin|]. rewrite Hl. exact Hp.
Qed.

Lemma requested_with_elim (p : module_obj -> bool) :
  requested_with w a p = true ->
  exists name info,
    In name (module a)
    /\ lookup (Py.lower name) (modules w) = Some info
    /\ p (init_module w (mi_path info)) = true.
Proof.
  unfold requested_with. intros H. apply existsb_exists in H as (name & Hin & H).
  destruct (lookup (Py.lower name) (modules w)) as [info|] eqn:E; [|discriminate].
  exists name, info. repeat split; assumption.
Qed.

Lemma load_module_expected (name : string) :
  In name (map Py.lower (module a)) ->
  inv (prompts_expected w a) (fun _ => prompts_expected w a) (load_module w a name).
Proof.
  intros Hin. unfold load_module.
  destruct (lookup name (modules w)) as [info|] eqn:El;
    [|inv_steps_with fail expected_leaf].
  set (m := init_module w (mi_path info)).
  apply inv_bind; [|intros _; apply inv_bind; [|intros _; apply inv_bind; [|intros _]]].
  - unfold opsec_gate. destruct (negb (opsec_safe m)) eqn:Eo; [|apply inv_ret].
    destruct (ignore_opsec w) eqn:Ei; [inv_steps_with fail expected_leaf|].
    apply confirm_expected. intros ans. cbn [prompt_expected]. rewrite Ei.
    cbn [negb andb]. exact (requested_with_intro _ name info Hin El Eo).
  - intros s [H1 H2]. unfold multiple_hosts_gate. rewrite bind_run. cbn [get].
    rewrite H2.
    destruct (negb (multiple_hosts m)) eqn:Em; cbn [andb]; [|split; assumption].
    destruct (1 <? _)%nat eqn:En; [|split; assumption].
    apply (confirm_expected PromptMultipleHosts); [|split; assumption].
    intros ans. cbn [prompt_expected]. rewrite En. cbn [andb].
    exact (requested_with_intro _ name info Hin El Em).
  - inv_steps_with fail expected_leaf.
  - inv_steps_with fail expected_leaf.
Qed.

Lemma suffix_expected :
  inv (prompts_expected w a) (fun _ => prompts_expected w a)
      (modules_step w a ;; ntds_gate a).
Proof.
  apply inv_bind; [|intros _].
  - unfold modules_step. destruct (list_modules a);
      [inv_steps_with fail expected_leaf|].
    destruct (module a) as [|m0 ms] eqn:Em; [apply inv_ret|].
    destruct (show_module_options a); [inv_steps_with fail expected_leaf|].
    apply inv_for_each. intros name Hin. apply load_module_expected.
    rewrite Em. exact Hin.
  - unfold ntds_gate. destruct (ntds a && negb (userntds a)) eqn:En; [|apply inv_ret].
    apply confirm_expected. intros ans. exact En.
Qed.

Lemma setup_expected : all_events (prompt_expected w a) (snd (setup_result w a)).
Proof.
  rewrite setup_result_run.
  assert (Hearly : forall s, all_events is_early s -> all_events (prompt_expected w a) s).
  { intros s H. unfold all_events in *. rewrite Forall_forall in *.
    intros e He. specialize (H e He). destruct e; try discriminate H; reflexivity. }
  destruct (fst (prefix_result w a)) as [[]|n|e|] eqn:Ef.
  - assert (Hl : exists ids, prefix_result w a = (Ret tt, loaded_state w a ids)).
    { revert Ef. unfold prefix_result.
      destruct (precondition_error w a); [discriminate|].
      destruct (expansion (cred_id a)) as [ids| | |]; try discriminate.
      destruct (existsb _ _); [|discriminate]. intros _. exists ids. reflexivity. }
    destruct Hl as [ids Hl]. rewrite Hl.
    assert (H0 : prompts_expected w a (loaded_state w a ids)).
    { split; [|reflexivity]. unfold all_events, loaded_state. cbn [st_trace].
      apply Forall_app. split.
      - destruct (clear_obfscripts a); repeat constructor.
      - destruct (existsb _ _); repeat constructor. }
    pose proof (suffix_expected _ H0) as H.
    destruct ((modules_step w a ;; ntds_gate a) (loaded_state w a ids))
      as [[[]|n|e|] s]; cbn [snd]; [apply H ..|destruct H].
  - assert (Hne : fst (prefix_result w a) <> Ret tt) by (rewrite Ef; discriminate).
    destruct (prefix_stops w a Hne) as (_ & _ & Hev & _).
    destruct (prefix_result w a) as [[[]|n'|e'|] s]; cbn [fst snd] in *;
      try discriminate Ef; exact (Hearly _ Hev).
  - assert (Hne : fst (prefix_result w a) <> Ret tt) by (rewrite Ef; discriminate).
    destruct (prefix_stops w a Hne) as (_ & _ & Hev & _).
    destruct (prefix_result w a) as [[[]|n'|e'|] s]; cbn [fst snd] in *;
      try discriminate Ef; exact (Hearly _ Hev).
  - assert (Hne : fst (prefix_result w a) <> Ret tt) by (rewrite Ef; discriminate).
    destruct (prefix_stops w a Hne) as (_ & _ & Hev & _).
    destruct (prefix_result w a) as [[[]|n'|e'|] s]; cbn [fst snd] in *;
      try discriminate Ef; exact (Hearly _ Hev).
Qed.

End Expected.

(** *** The port of the callback servers *)

Lemma servers_share_add (a : Args) (e : event) (s : state) :
  is_server_new e = false -> servers_share a s -> servers_share a (add_events [e] s).
Proof.
  intros He [H1 H2]. split; [exact H1|].
  intros id h p k Hin. cbn [add_events set_trace st_trace] in Hin.
  apply in_app_or in Hin as [Hin|[->|[]]]; [exact (H2 id h p k Hin)|discriminate He].
Qed.

Lemma port_table_set (kind : string) (p : Z) :
  lookup kind server_port_dict = Some p -> port_unset (Some p) = false.
Proof.
  unfold server_port_dict. cbn [lookup].
  destruct (String.eqb "http" kind); [intros [= <-]; reflexivity|].
  destruct (String.eqb "https" kind); [intros [= <-]; reflexivity|].
  destruct (String.eqb "smb" kind); [intros [= <-]; reflexivity|discriminate].
Qed.

(** A state that differs from one where the servers share their
    port by more events, among them servers for that port. *)
Lemma servers_share_more (a : Args) (s s' : state) (evs : list event) :
  servers_share a s ->
  st_trace s' = st_trace s ++ evs ->
  st_server_port s' = st_server_port s ->
  (forall id h p k,
      In (EvServerNew id h p k) evs ->
      h = server_host a /\ p = st_server_port s /\ port_unset p = false) ->
  servers_share a s'.
Proof.
  intros [H1 H2] Ht Hp Hevs. split; [rewrite Hp; exact H1|].
  intros id h p k Hin. rewrite Ht in Hin. rewrite Hp.
  apply in_app_or in Hin as [Hin|Hin]; [exact (H2 id h p k Hin)|exact (Hevs id h p k Hin)].
Qed.

Lemma start_module_server_share (w : World) (a : Args) (m : module_obj) (s : state) :
  port_unset (st_server_port s) = false ->
  servers_share a s -> servers_share a (snd (start_module_server w a m s))
  /\ fst (start_module_server w a m s) = Ret tt.
Proof.
  intros Hu H. rewrite start_module_server_run. cbv zeta.
  assert (Hnew : forall id h p k,
             In (EvServerNew id h p k)
                [EvServerNew (st_servers s) (server_host a) (st_server_port s)
                   (st_server s)] ->
             h = server_host a /\ p = st_server_port s /\ port_unset p = false).
  { intros id h p k [[= <- <- <- <-]|[]]. repeat split. exact Hu. }
  destruct (http_server_new w (st_servers s)) as [e|];
    [|destruct (http_server_start w (st_servers s)) as [e|]]; cbn [fst snd];
    (split; [|reflexivity]).
  - apply (servers_share_more a s _ [EvError (LogServerError (mod_name m))] H);
      [reflexivity|reflexivity|].
    intros id h p k [Hin|[]]. discriminate Hin.
  - apply (servers_share_more a s _
             [EvServerNew (st_servers s) (server_host a) (st_server_port s) (st_server s);
              EvError (LogServerError (mod_name m))] H);
      [reflexivity|reflexivity|].
    intros id h p k [Hin|[Hin|[]]]; [|discriminate Hin].
    apply (Hnew id h p k). left. exact Hin.
  - apply (servers_share_more a s _
             [EvServerNew (st_servers s) (server_host a) (st_server_port s) (st_server s);
              EvServerStart (st_servers s)] H);
      [reflexivity|reflexivity|].
    intros id h p k [Hin|[Hin|[]]]; [|discriminate Hin].
    apply (Hnew id h p k). left. exact Hin.
Qed.

Lemma module_server_step_share (w : World) (a : Args) (m : module_obj) :
  inv (servers_share a) (fun _ => servers_share a) (module_server_step w a m).
Proof.
  intros s H. destruct (needs_server m) eqn:En.
  - rewrite (module_server_step_run w a m s En). cbv zeta.
    destruct (port_unset (st_server_port s)) eqn:Eu.
    + destruct (lookup (server_kind m s) server_port_dict) as [p|] eqn:El.
      * assert (H' : servers_share a
                       (set_server_port (Some p) (set_server (server_kind m s) s))).
        { destruct H as [H1 H2]. split.
          - intros Ha. rewrite (H1 Ha) in Eu. congruence.
          - intros id h q k Hin. cbn [set_server_port set_server st_trace] in Hin.
            destruct (H2 id h q k Hin) as (_ & -> & Hq). congruence. }
        destruct (start_module_server_share w a m
                    (set_server_port (Some p) (set_server (server_kind m s) s))
                    (port_table_set _ _ El) H')
          as [Hs Hr].
        destruct (start_module_server w a m _) as [[[]|n|e|] s']; cbn [fst snd] in *;
          try discriminate Hr. exact Hs.
      * exact H.
    + assert (H' : servers_share a (set_server (server_kind m s) s)) by exact H.
      destruct (start_module_server_share w a m
                  (set_server (server_kind m s) s) Eu H') as [Hs Hr].
      destruct (start_module_server w a m _) as [[[]|n|e|] s']; cbn [fst snd] in *;
        try discriminate Hr. exact Hs.
  - unfold module_server_step. unfold needs_server in En. rewrite En. exact H.
Qed.

Ltac share_atom :=
  idtac;
  lazymatch goal with
  | |- inv _ _ (module_server_step _ _ _) => apply module_server_step_share
  end.

Ltac share_leaf :=
  first
    [ let H := fresh in intros ? H; exact H
    | let H := fresh in intros ? H; apply servers_share_add; [reflexivity|exact H] ].

Lemma setup_share (w : World) (a : Args) :
  inv (servers_share a) (fun _ => servers_share a) (setup w a).
Proof. unfold setup. inv_steps_with share_atom share_leaf. Qed.

(** *** The database engine *)

Lemma filter_none (p : event -> bool) (evs : list event) :
  (forall e, In e evs -> p e = false) -> filter p evs = [].
Proof.
  intros H. induction evs as [|e evs IH]; simpl; [reflexivity|].
  rewrite (H e (or_introl eq_refl)). apply IH.
  intros e' He'. apply H. right. exact He'.
Qed.

Lemma count_app (p : event -> bool) (tr1 tr2 : list event) :
  count p (tr1 ++ tr2) = (count p tr1 + count p tr2)%nat.
Proof. unfold count. rewrite filter_app, length_app. reflexivity. Qed.

Lemma count_quiet (p : event -> bool) (evs : list event) :
  (forall e, is_setup e = false -> p e = false) ->
  (forall e, In e evs -> is_setup e = false) ->
  count p evs = O.
Proof. intros Hp H. unfold count. rewrite (filter_quiet p evs Hp H). reflexivity. Qed.

Lemma count_all (p q : event -> bool) (s : state) :
  (forall e, q e = true -> p e = false) ->
  all_events q s -> count p (st_trace s) = O.
Proof.
  intros Hpq H. unfold count. rewrite (all_events_filter q p s Hpq H). reflexivity.
Qed.

Ltac engine_leaf :=
  first
    [ let H := fresh in intros ? H; exact H
    | let H := fresh in
      intros ? H; cbv beta in *; cbn [add_events set_trace st_trace];
      rewrite count_app; cbn [count filter is_db_engine List.length];
      rewrite Nat.add_0_r; exact H ].

Lemma suffix_engine (w : World) (a : Args) (n : nat) :
  inv (fun s => count is_db_engine (st_trace s) = n)
      (fun _ s => count is_db_engine (st_trace s) = n)
      (modules_step w a ;; ntds_gate a).
Proof. inv_steps_with fail engine_leaf. Qed.

End Provenance.

Import Provenance.

(** X14: where the prompts of a run come from.  The opsec question
    is asked only when [ignore_opsec] is off and a requested module
    is not opsec safe; the question about multiple hosts only when
    more than one target was built and a requested module does not
    support multiple hosts; the question about the ntds dump only
    with [--ntds] and without [--user]. *)
Theorem prompt_provenance (w : World) (a : Args) (k : prompt_kind) (ans : option string) :
  In (EvPrompt k ans) (st_trace (snd (main w a))) ->
  match k with
  | PromptOpsec =>
      ignore_opsec w = false
      /\ exists name info,
           In name (module a)
           /\ lookup (Py.lower name) (modules w) = Some info
           /\ opsec_safe (init_module w (mi_path info)) = false
  | PromptMultipleHosts =>
      (1 < List.length (build_targets w (protocol_name a) (target a)))%nat
      /\ exists name info,
           In name (module a)
           /\ lookup (Py.lower name) (modules w) = Some info
           /\ multiple_hosts (init_module w (mi_path info)) = false
  | PromptNtds => ntds a = true /\ userntds a = false
  end.
Proof.
  intros Hin.
  assert (He : prompt_expected w a (EvPrompt k ans) = true).
  { pose proof (setup_expected w a) as H.
    destruct (main_cases w a) as [[_ Hm]|[_ Hm]]; rewrite Hm in Hin.
    - cbn [snd add_events set_trace st_trace] in Hin.
      apply in_app_or in Hin as [Hin|Hin];
        [exact (Setup.all_events_not_in _ _ _ H Hin)|].
      apply dispatch_events_quiet in Hin. discriminate Hin.
    - exact (Setup.all_events_not_in _ _ _ H Hin). }
  destruct k; cbn [prompt_expected] in He; apply andb_true_iff in He as [H1 H2].
  - apply negb_true_iff in H1. split; [exact H1|].
    destruct (requested_with_elim w a _ H2) as (name & info & Hn & Hl & Hp).
    exists name, info. apply negb_true_iff in Hp. repeat split; assumption.
  - apply Nat.ltb_lt in H1. split; [exact H1|].
    destruct (requested_with_elim w a _ H2) as (name & info & Hn & Hl & Hp).
    exists name, info. apply negb_true_iff in Hp. repeat split; assumption.
  - apply negb_true_iff in H2. split; assumption.
Qed.

Lemma prompt_provenance_witness :
  ignore_opsec noisy_world = false
  /\ exists name info,
       In name ["A"]
       /\ lookup (Py.lower name) (modules noisy_world) = Some info
       /\ opsec_safe (init_module noisy_world (mi_path info)) = false.
Proof.
  apply (prompt_provenance noisy_world
           (make_args (Some []) ["10.0.0.1"] ["A"] false true)
           PromptOpsec (Some "n")).
  vm_compute. auto.
Defined.

(** X15: all the callback servers of a run are made for the
    configured host and for one port: a port given on the command
    line, or else the default port of the first server's kind, which
    line 229 writes into [args.server_port] for the servers that
    follow, whatever their kind. *)
Theorem servers_share_port (w : World) (a : Args) :
  exists port,
    (port_unset (server_port a) = false -> server_port a = Some port)
    /\ forall id h p k,
         In (EvServerNew id h p k) (st_trace (snd (main w a))) ->
         h = server_host a /\ p = Some port /\ port <> 0.
Proof.
  assert (H0 : servers_share a (initial_state w a)).
  { split; [reflexivity|]. intros id h p k []. }
  pose proof (setup_share w a (initial_state w a) H0) as H.
  fold (setup_result w a) in H.
  assert (Hs : servers_share a (snd (setup_result w a))).
  { destruct (setup_result w a) as [[[]|n|e|] s]; [exact H ..|destruct H]. }
  destruct Hs as [H1 H2].
  exists (match st_server_port (snd (setup_result w a)) with Some p => p | None => 0 end).
  split.
  - intros Ha. rewrite <- (H1 Ha).
    rewrite (H1 Ha) in *. destruct (server_port a); [reflexivity|discriminate Ha].
  - intros id h p k Hin.
    assert (Hin' : In (EvServerNew id h p k) (st_trace (snd (setup_result w a)))).
    { destruct (main_cases w a) as [[_ Hm]|[_ Hm]]; rewrite Hm in Hin; [|exact Hin].
      cbn [snd add_events set_trace st_trace] in Hin.
      apply in_app_or in Hin as [Hin|Hin]; [exact Hin|].
      apply dispatch_events_quiet in Hin. discriminate Hin. }
    destruct (H2 id h p k Hin') as (Hh & Hp & Hu). split; [exact Hh|].
    rewrite <- Hp. destruct p as [n|]; [|discriminate Hu].
    split; [reflexivity|]. simpl in Hu. apply Z.eqb_neq in Hu. exact Hu.
Qed.

(** X16: the database engine is made at most once, and exactly once
    when lines 101-175 get through; when the run reaches dispatch,
    the engine is disposed of exactly once, as the last thing the run
    does, however dispatch ends; a run that ends in [setup] never
    disposes of it. *)
Theorem db_engine_lifecycle (w : World) (a : Args) :
  let tr := st_trace (snd (main w a)) in
  (count is_db_engine tr <= 1)%nat
  /\ (count is_db_engine tr = 1%nat
      <-> fst (setup_prefix w a (initial_state w a)) = Ret tt)
  /\ match fst (setup_result w a) with
     | Ret _ =>
         exists tr', tr = tr' ++ [EvDbDispose] /\ count is_db_dispose tr' = O
     | _ => count is_db_dispose tr = O
     end.
Proof.
  cbv zeta. rewrite setup_prefix_run.
  assert (Hdisp : count is_db_dispose (st_trace (snd (setup_result w a))) = O).
  { pose proof (setup_events w a (initial_state w a) (initial_all_events _ w a)) as H.
    fold (setup_result w a) in H. apply (count_all _ is_setup).
    - intros [] He; try discriminate He; reflexivity.
    - destruct (setup_result w a) as [[[]|n|e|] s]; [exact H ..|destruct H]. }
  assert (Heng : count is_db_engine (st_trace (snd (setup_result w a)))
                 = match fst (prefix_result w a) with Ret _ => 1%nat | _ => O end).
  { rewrite setup_result_run.
    destruct (fst (prefix_result w a)) as [[]|n|e|] eqn:Ef.
    - assert (Hl : count is_db_engine (st_trace (snd (prefix_result w a))) = 1%nat).
      { revert Ef. unfold prefix_result.
        destruct (precondition_error w a); [discriminate|].
        destruct (expansion (cred_id a)) as [ids| | |]; try discriminate.
        unfold loaded_state. destruct (existsb _ _); [|discriminate]. intros _.
        cbn [snd st_trace]. destruct (clear_obfscripts a); reflexivity. }
      pose proof (suffix_engine w a 1 (snd (prefix_result w a)) Hl) as H.
      destruct (prefix_result w a) as [[[]|n'|e'|] s]; cbn [fst snd] in *;
        try discriminate Ef.
      destruct ((modules_step w a ;; ntds_gate a) s) as [[[]|n|e|] s'];
        cbn [snd]; [exact H ..|destruct H].
    - assert (Hne : fst (prefix_result w a) <> Ret tt) by (rewrite Ef; discriminate).
      destruct (prefix_stops w a Hne) as (_ & _ & Hev & _).
      destruct (prefix_result w a) as [[[]|n'|e'|] s]; cbn [fst snd] in *;
        try discriminate Ef.
      apply (count_all _ is_early); [|exact Hev].
      intros [] He; try discriminate He; reflexivity.
    - assert (Hne : fst (prefix_result w a) <> Ret tt) by (rewrite Ef; discriminate).
      destruct (prefix_stops w a Hne) as (_ & _ & Hev & _).
      destruct (prefix_result w a) as [[[]|n'|e'|] s]; cbn [fst snd] in *;
        try discriminate Ef.
      apply (count_all _ is_early); [|exact Hev].
      intros [] He; try discriminate He; reflexivity.
    - assert (Hne : fst (prefix_result w a) <> Ret tt) by (rewrite Ef; discriminate).
      destruct (prefix_stops w a Hne) as (_ & _ & Hev & _).
      destruct (prefix_result w a) as [[[]|n'|e'|] s]; cbn [fst snd] in *;
        try discriminate Ef.
      apply (count_all _ is_early); [|exact Hev].
      intros [] He; try discriminate He; reflexivity. }
  assert (Hmain : count is_db_engine (st_trace (snd (main w a)))
                  = count is_db_engine (st_trace (snd (setup_result w a)))).
  { destruct (main_cases w a) as [[_ ->]|[_ ->]]; [|reflexivity].
    cbn [snd add_events set_trace st_trace]. rewrite count_app.
    rewrite (count_quiet is_db_engine _
               (fun e => match e with EvDbEngine _ => fun H => H | _ => fun _ => eq_refl end)
               (dispatch_events_quiet w a _)).
    apply Nat.add_0_r. }
  rewrite Hmain, Heng. split; [|split].
  - destruct (fst (prefix_result w a)); lia.
  - destruct (fst (prefix_result w a)) as [[]| | |]; split; intros H;
      try reflexivity; discriminate H.
  - destruct (main_cases w a) as [[Hr Hm]|[Hr Hm]]; rewrite Hm.
    + rewrite Hr. cbn [snd add_events set_trace st_trace].
      set (s := snd (setup_result w a)) in *.
      exists (st_trace s ++ run_events w a (st_targets s)
              ++ match st_module_server s with
                 | Some id => [EvServerShutdown id]
                 | None => []
                 end).
      split.
      * unfold teardown_events. rewrite <- !app_assoc.
        destruct (st_module_server s); reflexivity.
      * rewrite !count_app, Hdisp.
        assert (Hrun : count is_db_dispose (run_events w a (st_targets s)) = O).
        { unfold count. rewrite (filter_none is_db_dispose); [reflexivity|].
          intros e He. apply run_events_kind in He.
          destruct e; try reflexivity; discriminate He. }
        rewrite Hrun. destruct (st_module_server s); reflexivity.
    + destruct (fst (setup_result w a)) as [[]| | |];
        [contradiction Hr; reflexivity|exact Hdisp ..].
Qed.

(** X17: with [--ntds] and without [--user], nothing is dispatched
    unless the question about the ntds dump was answered with yes:
    in a run that reaches dispatch, that question is the last thing
    [setup] did, its answer lower-cases to "y", "yes" or the empty
    string, and whatever was dispatched came after it. *)
Theorem ntds_needs_yes (w : World) (a : Args) :
  ntds a = true -> userntds a = false ->
  fst (setup_result w a) = Ret tt ->
  exists ans tr tr',
    st_trace (snd (main w a)) = tr ++ EvPrompt PromptNtds (Some ans) :: tr'
    /\ affirmative ans = true
    /\ dispatched tr = []
    /\ forall e, In e tr' -> is_setup e = false.
Proof.
  intros Hn Hu Hr.
  destruct (setup_returns w a Hr) as (ids & _ & _ & _ & _ & Hsuf).
  pose proof (Main.setup_no_dispatch w a) as Hnd.
  rewrite bind_run in Hsuf.
  destruct (modules_step w a (loaded_state w a ids)) as [[[]|n|e|] s1];
    try discriminate Hsuf.
  unfold ntds_gate in Hsuf. rewrite Hn, Hu in Hsuf. cbn [negb andb] in Hsuf.
  destruct (st_stdin s1) as [|ans rest] eqn:Es.
  - rewrite (confirm_eof _ _ Es) in Hsuf. discriminate Hsuf.
  - rewrite (confirm_run _ _ ans rest Es) in Hsuf.
    destruct (affirmative ans) eqn:Ea; [|discriminate Hsuf].
    injection Hsuf as Hs.
    destruct (main_cases w a) as [[_ Hm]|[Hne _]]; [|contradiction Hne].
    exists ans, (st_trace s1),
      (run_events w a (st_targets (snd (setup_result w a)))
       ++ teardown_events (snd (setup_result w a))).
    rewrite Hm. cbn [snd add_events set_trace st_trace].
    rewrite <- Hs in *. cbn [add_events set_trace st_trace set_stdin st_targets] in *.
    split; [rewrite <- app_assoc; reflexivity|].
    split; [exact Ea|]. split.
    + unfold dispatched in *. rewrite filter_app in Hnd.
      apply app_eq_nil in Hnd as [Hnd _]. exact Hnd.
    + intros e He. apply in_app_or in He as [He|He].
      * exact (run_events_quiet _ _ _ _ He).
      * exact (teardown_events_quiet _ _ He).
Qed.

Lemma ntds_needs_yes_witness :
  exists ans tr tr',
    st_trace (snd (main (make_world [] plain_module ["Y"]) (with_ntds plain_args)))
    = tr ++ EvPrompt PromptNtds (Some ans) :: tr'
    /\ affirmative ans = true.
Proof.
  destruct (ntds_needs_yes (make_world [] plain_module ["Y"]) (with_ntds plain_args)
              eq_refl eq_refl) as (ans & tr & tr' & H1 & H2 & _).
  - vm_compute. reflexivity.
  - exists ans, tr, tr'. split; assumption.
Defined.

(** ** From the command line to the handlers *)

Module EndToEnd.
Import Run Dispatch CredIds Main Setup Prefix Listing Suffix Prompts Provenance.

Lemma dispatched_app (tr1 tr2 : list event) :
  dispatched (tr1 ++ tr2) = dispatched tr1 ++ dispatched tr2.
Proof. apply filter_app. Qed.

Lemma dispatched_teardown (s : state) : dispatched (teardown_events s) = [].
Proof. unfold teardown_events. destruct (st_module_server s); reflexivity. Qed.

(** The state [setup] returns in has the targets built from the
    command line. *)
Lemma setup_targets (w : World) (a : Args) :
  fst (setup_result w a) = Ret tt ->
  st_targets (snd (setup_result w a)) = build_targets w (protocol_name a) (target a).
Proof.
  intros Hr. destruct (setup_returns w a Hr) as (ids & _ & _ & _ & _ & Hsuf).
  destruct (suffix_returns w a _ _ Hsuf) as (_ & _ & (_ & _ & Ht) & _).
  exact Ht.
Qed.

(** What the dispatch engine wrote in a run that reached it. *)
Lemma main_dispatched (w : World) (a : Args) :
  fst (setup_result w a) = Ret tt ->
  fst (main w a) = dispatch_outcome w a
  /\ dispatched (st_trace (snd (main w a)))
     = if threads a + 1 <=? 0 then []
       else pool_events w a (build_targets w (protocol_name a) (target a)).
Proof.
  intros Hr. pose proof (setup_no_dispatch w a) as Hnd.
  destruct (main_cases w a) as [[_ Hm]|[Hne _]]; [|contradiction Hne].
  rewrite Hm. cbn [fst snd add_events set_trace st_trace]. split; [reflexivity|].
  rewrite !dispatched_app, Hnd, dispatched_teardown, app_nil_r, (setup_targets w a Hr).
  apply run_events_dispatched.
Qed.



End EndToEnd.

Import EndToEnd.



(** X19: a negative [--threads] is found out only at line 58 or 63,
    after [setup] has done all its work: the executor refuses a pool
    without workers, and the run ends with a [ValueError], status 1,
    no handler invoked; a progress display that was opened is closed,
    and the teardown of line 269 still runs. *)
Theorem negative_threads (w : World) (a : Args) :
  fst (setup_result w a) = Ret tt -> threads a < 0 ->
  fst (main w a) = Raise ValueError
  /\ exit_status (fst (main w a)) = 1
  /\ dispatched (st_trace (snd (main w a))) = []
  /\ exists tr,
       st_trace (snd (main w a))
       = st_trace (snd (setup_result w a))
         ++ tr ++ teardown_events (snd (setup_result w a))
       /\ (tr = [] \/ tr = [EvProgressOpen; EvProgressClose]).
Proof.
  intros Hr Hw. destruct (main_dispatched w a Hr) as [Ho Hd].
  assert (Hpool : (threads a + 1 <=? 0) = true) by (apply Z.leb_le; lia).
  rewrite Hpool in Hd.
  assert (Hraise : fst (main w a) = Raise ValueError).
  { rewrite Ho. unfold dispatch_outcome, run_outcome. rewrite Hpool. reflexivity. }
  split; [exact Hraise|]. split; [rewrite Hraise; reflexivity|]. split; [exact Hd|].
  destruct (main_cases w a) as [[_ Hm]|[Hne _]]; [|contradiction Hne].
  exists (run_events w a (st_targets (snd (setup_result w a)))).
  rewrite Hm. cbn [snd add_events set_trace st_trace]. split; [reflexivity|].
  unfold run_events. rewrite Hpool. destruct (_ || _); [left|right]; reflexivity.
Qed.

Lemma negative_threads_witness :
  fst (main quiet_world (with_threads (-1) plain_args)) = Raise ValueError
  /\ dispatched (st_trace (snd (main quiet_world (with_threads (-1) plain_args)))) = [].
Proof.
  destruct (negative_threads quiet_world (with_threads (-1) plain_args))
    as (H1 & _ & H2 & _).
  - vm_compute. reflexivity.
  - vm_compute. reflexivity.
  - split; [exact H1|exact H2].
Defined.




(** X22: a module with a request hook whose server kind is not in
    the table of line 117, when no port is configured, ends the run
    at line 229 with the [KeyError] of the table, outside the [try]
    of line 232: nothing is logged, no server is made, and the module
    is not attached.  A configured port keeps the table from being
    consulted, whatever the kind. *)
Theorem unknown_server_kind (w : World) (a : Args) (m : module_obj) (s : state) :
  needs_server m = true ->
  lookup (server_kind m s) server_port_dict = None ->
  (port_unset (st_server_port s) = true ->
   module_server_step w a m s = (Raise KeyError, set_server (server_kind m s) s)
   /\ (module_server_step w a m ;; attach m) s
      = (Raise KeyError, set_server (server_kind m s) s)
   /\ forall name info,
        lookup name (modules w) = Some info -> init_module w (mi_path info) = m ->
        opsec_safe m = true -> multiple_hosts m = true ->
        for_each [name] (load_module w a) s
        = (Raise KeyError, set_server (server_kind m s) s))
  /\ (port_unset (st_server_port s) = false ->
      fst (module_server_step w a m s) = Ret tt
      /\ st_server_port (snd (module_server_step w a m s)) = st_server_port s).
Proof.
  intros Hn Hl. split.
  - intros Hu.
    assert (Hstep : module_server_step w a m s
                    = (Raise KeyError, set_server (server_kind m s) s)).
    { rewrite (Server.module_server_step_run w a m s Hn). cbv zeta.
      rewrite Hu, Hl. reflexivity. }
    split; [exact Hstep|]. split.
    + rewrite Dispatch.bind_run, Hstep. reflexivity.
    + intros name info Hi Hm Ho Hh. cbn [for_each].
      rewrite Dispatch.bind_run. unfold load_module. rewrite Hi, Hm.
      rewrite Dispatch.bind_run. unfold opsec_gate. rewrite Ho. cbn [negb ret].
      rewrite Dispatch.bind_run. unfold multiple_hosts_gate.
      rewrite Dispatch.bind_run. cbn [get]. rewrite Hh. cbn [negb andb ret].
      rewrite Dispatch.bind_run, Hstep. reflexivity.
  - intros Hu. rewrite (Server.module_server_step_run w a m s Hn). cbv zeta.
    rewrite Hu, Server.start_module_server_run. cbv zeta.
    destruct (http_server_new w _); [|destruct (http_server_start w _)];
      split; reflexivity.
Qed.

Lemma unknown_server_kind_witness :
  for_each ["a"] (load_module (make_world [("a", module_at "a.py")] ftp_module [])
                    plain_args)
    (initial_state (make_world [("a", module_at "a.py")] ftp_module []) plain_args)
  = (Raise KeyError,
     set_server "ftp"
       (initial_state (make_world [("a", module_at "a.py")] ftp_module []) plain_args)).
Proof.
  destruct (unknown_server_kind
              (make_world [("a", module_at "a.py")] ftp_module []) plain_args
              (ftp_module "a.py")
              (initial_state (make_world [("a", module_at "a.py")] ftp_module [])
                 plain_args)
              eq_refl eq_refl) as [H _].
  destruct (H eq_refl) as (_ & _ & H3).
  exact (H3 "a" (module_at "a.py") eq_refl eq_refl eq_refl eq_refl).
Defined.
